(** * GOYN reporting platform: the report store and the routes of [app.py]

    A shallow embedding of the data operations ([get_value_sql],
    [upsert_value_sql]), of the background spreadsheet sync
    ([sync_to_google_background], [_run_sync]) and of the routes [save],
    [review] and [download_report], followed by the properties of the
    report store and of the review and export pipeline.

    The [reports] table is a list of rows in the order in which the storage
    engine enumerates them; its primary key is the invariant [wf_table].
    Failures of the storage itself (an unreadable database file) are outside
    the model: every statement is about requests whose SQL statements run. *)

From Stdlib Require Import Ascii.
From stdpp Require Import base option list strings gmap fin_maps.

Local Open Scope string_scope.

(** ** Configuration ([config.json], loaded once into [CONFIG]) *)

Record Indicator := {
  ind_id : string;
  ind_name : string;
  ind_unit : string;
  ind_derived : bool
}.

Record SectionDef := {
  sec_id : string;
  sec_name : string;
  sec_description : string;
  indicators : list Indicator
}.

Record GoogleSheets := {
  enabled : bool;
  credentials_file : option string;
  sheet_name : option string
}.

(** [active_year] is a string of the document: it is compared with
    [str(year)] and is the default of the [year: str] parameter of the index
    route. An indicator without a ["derived"] entry has [ind_derived] false,
    as the templates read it. *)
Record Config := {
  app_title : string;
  active_year : string;
  sections : list SectionDef;
  google_sheets : option GoogleSheets
}.

(** ** The [reports] table *)

Definition Key : Type := string * string * string * string.

Record Row := {
  community : string;
  year : string;
  period : string;
  indicator_id : string;
  value : string;
  unit_ : string;
  last_updated : string
}.

Definition row_key (r : Row) : Key :=
  (community r, year r, period r, indicator_id r).

(** PRIMARY KEY (community, year, period, indicator_id). *)
Definition wf_table (db : list Row) : Prop := NoDup (row_key <$> db).

(** Rows selected by [WHERE community=? AND year=? AND period=? AND
    indicator_id=?]. *)
Definition rows_at (k : Key) (db : list Row) : list Row :=
  filter (λ r, row_key r = k) db.

(** Rows selected by [WHERE community=? AND year=? AND period=?]. The
    order in which the engine returns them is its own choice (it may follow
    the index of the primary key); what is stated of a scan below is stated
    up to that order. *)
Definition rows_of_report (c y p : string) (db : list Row) : list Row :=
  filter (λ r, community r = c ∧ year r = y ∧ period r = p) db.

(** ** Exceptions and the state of the process *)

Inductive exn :=
  | TypeError
  | IndexError
  | KeyError (key : string)
  | ExternalError (what : string).

Inductive result (A : Type) :=
  | Ok (a : A)
  | Raise (e : exn).
Arguments Ok {A} a.
Arguments Raise {A} e.

Inductive LogLine :=
  | SyncComplete
  | SyncError (e : exn).

(** [reports]: the table; [threads]: the [_run_sync] threads started and not
    yet run; [stdout]: what [print] wrote. *)
Record World := {
  reports : list Row;
  threads : nat;
  stdout : list LogLine
}.

Definition set_reports (db : list Row) (w : World) : World :=
  {| reports := db; threads := threads w; stdout := stdout w |}.

Definition start_thread (w : World) : World :=
  {| reports := reports w; threads := S (threads w); stdout := stdout w |}.

Definition print (l : LogLine) (w : World) : World :=
  {| reports := reports w; threads := threads w; stdout := stdout w ++ [l] |}.

(** ** Google Sheets sync *)

(** [CONFIG.get("google_sheets", {}).get("enabled", False)] *)
Definition sync_enabled (cfg : Config) : bool :=
  match google_sheets cfg with
  | Some g => enabled g
  | None => false
  end.

Definition sync_to_google_background (cfg : Config) (w : World) : World :=
  if negb (sync_enabled cfg) then w else start_thread w.

(** The calls of [_run_sync] that leave the process; each one either
    succeeds or raises. *)
Inductive SyncStep :=
  | ImportGspread
  | ImportOauth2client
  | ReadReports
  | LoadCredentials
  | Authorize
  | OpenSheet
  | CreateSheet
  | ClearSheet
  | UpdateSheet.

Definition SyncEnv : Type := SyncStep → option exn.

Definition call (env : SyncEnv) (s : SyncStep) : result unit :=
  match env s with
  | None => Ok tt
  | Some e => Raise e
  end.

#[global] Instance result_ret : MRet result := λ A, Ok.

#[global] Instance result_bind : MBind result := λ A B k m,
  match m with
  | Ok a => k a
  | Raise e => Raise e
  end.

(** [CONFIG["google_sheets"][field]] *)
Definition config_sheets_field (cfg : Config)
    (name : string) (field : GoogleSheets → option string) : result string :=
  match google_sheets cfg with
  | None => Raise (KeyError "google_sheets")
  | Some g =>
      match field g with
      | None => Raise (KeyError name)
      | Some s => Ok s
      end
  end.

(** [try: ... except: ...] with a handler for every exception. *)
Definition try_except {A} (body : result A) (handler : exn → result A)
    : result A :=
  match body with
  | Ok a => Ok a
  | Raise e => handler e
  end.

(** What each step of the [try] block of [_run_sync] raises, in the order
    of the block: the two imports, the read of the table, the two entries
    of the configuration, the credentials, the authorization, the sheet
    (its creation when it cannot be opened), the clearing and the update. *)
Definition sync_outcomes (cfg : Config) (env : SyncEnv) : list (option exn) :=
  let entry name (field : GoogleSheets → option string) :=
    match google_sheets cfg with
    | None => Some (KeyError "google_sheets")
    | Some g => match field g with
                | None => Some (KeyError name)
                | Some _ => None
                end
    end in
  [env ImportGspread; env ImportOauth2client; env ReadReports;
   entry "credentials_file" credentials_file;
   entry "sheet_name" sheet_name;
   env LoadCredentials; env Authorize;
   match env OpenSheet with
   | None => None
   | Some _ => env CreateSheet
   end;
   env ClearSheet; env UpdateSheet].

(** The exception of the first step that raises, if one does. *)
Definition first_failure (cfg : Config) (env : SyncEnv) : option exn :=
  head (omap id (sync_outcomes cfg env)).

(** The [try] block of [_run_sync], up to the final [print]. *)
Definition sync_body (cfg : Config) (env : SyncEnv) : result unit :=
  call env ImportGspread ;;
  call env ImportOauth2client ;;
  call env ReadReports ;;
  creds_file ← config_sheets_field cfg "credentials_file" credentials_file;
  name ← config_sheets_field cfg "sheet_name" sheet_name;
  call env LoadCredentials ;;
  call env Authorize ;;
  try_except (call env OpenSheet) (λ _, call env CreateSheet) ;;
  call env ClearSheet ;;
  call env UpdateSheet.

Definition _run_sync (cfg : Config) (env : SyncEnv) (w : World)
    : result unit * World :=
  match sync_body cfg env with
  | Ok _ => (Ok tt, print SyncComplete w)
  | Raise e => (Ok tt, print (SyncError e) w)
  end.

(** One started thread gets to run. *)
Definition run_thread (cfg : Config) (env : SyncEnv) (w : World)
    : result unit * World :=
  match threads w with
  | O => (Ok tt, w)
  | S n =>
      _run_sync cfg env
        {| reports := reports w; threads := n; stdout := stdout w |}
  end.

(** ** Data operations *)

(** [fetchone()] of the point query, then [row['value'] if row else ""]. *)
Definition get_value_sql (db : list Row) (c y p i : string) : string :=
  match head (rows_at (c, y, p, i) db) with
  | Some row => value row
  | None => EmptyString
  end.

(** [INSERT ... ON CONFLICT(community, year, period, indicator_id) DO UPDATE
    SET value=excluded.value, unit=excluded.unit,
    last_updated=excluded.last_updated]. The conflicting row is updated in
    place; a new row is put last (where the engine enumerates it is its own
    choice: see [get_value_sql_perm] and [review_perm]). *)
Fixpoint insert_or_update (new : Row) (db : list Row) : list Row :=
  match db with
  | [] => [new]
  | r :: rest =>
      if decide (row_key r = row_key new)
      then {| community := community r; year := year r; period := period r;
              indicator_id := indicator_id r;
              value := value new; unit_ := unit_ new;
              last_updated := last_updated new |} :: rest
      else r :: insert_or_update new rest
  end.

(** [now] is the reading of the clock, [datetime.now()] formatted to the
    second. *)
Definition upsert_value_sql (cfg : Config) (now : string) (w : World)
    (c y p i v u : string) : World :=
  if decide (y ≠ active_year cfg) then w
  else
    let new := {| community := c; year := y; period := p; indicator_id := i;
                  value := v; unit_ := u; last_updated := now |} in
    sync_to_google_background cfg
      (set_reports (insert_or_update new (reports w)) w).

(** ** Routes *)

(** [next((s for s in CONFIG["sections"] if s["id"] == section_id),
    CONFIG["sections"][0])]: the default is evaluated before the search. *)
Definition find_section (cfg : Config) (section_id : string)
    : result SectionDef :=
  match sections cfg with
  | [] => Raise IndexError
  | s0 :: _ =>
      Ok (default s0 (head (filter (λ s, sec_id s = section_id) (sections cfg))))
  end.

(** [next((i for i in section["indicators"] if i["id"] == indicator_id),
    None)] *)
Definition find_indicator (section : SectionDef) (iid : string)
    : option Indicator :=
  head (filter (λ i, ind_id i = iid) (indicators section)).

(** [dict(ind_def)] with the key ["value"] set. *)
Record Item := {
  item_id : string;
  item_name : string;
  item_unit : string;
  item_derived : bool;
  item_value : string
}.

Definition dict (ind_def : option Indicator) : result Indicator :=
  match ind_def with
  | Some ind => Ok ind
  | None => Raise TypeError
  end.

Definition with_value (ind : Indicator) (v : string) : Item :=
  {| item_id := ind_id ind; item_name := ind_name ind;
     item_unit := ind_unit ind; item_derived := ind_derived ind;
     item_value := v |}.

(** What [ROW_HTML_STR] shows of its context (the client-side [autoSum]
    attribute is left out). *)
Record RowHtml := {
  label : string;
  hidden_community : string;
  hidden_year : string;
  hidden_period : string;
  hidden_section_id : string;
  hidden_indicator_id : string;
  hidden_unit : string;
  input_type : string;
  input_value : string;
  input_locked : bool;
  input_disabled : bool;
  saved_flash : bool;
  saved_badge : bool
}.

Definition render_row (ind : Item) (c y p section_id : string)
    (editable saved : bool) : RowHtml :=
  {| label := item_name ind;
     hidden_community := c; hidden_year := y; hidden_period := p;
     hidden_section_id := section_id;
     hidden_indicator_id := item_id ind;
     hidden_unit := item_unit ind;
     input_type := if decide (item_unit ind = "Text") then "text" else "number";
     input_value := item_value ind;
     input_locked := negb editable;
     input_disabled := negb editable || item_derived ind;
     saved_flash := saved;
     saved_badge := saved |}.

Definition save (cfg : Config) (now : string) (w : World)
    (c y p section_id iid v u : string) : result RowHtml * World :=
  let w' := upsert_value_sql cfg now w c y p iid v u in
  (section ← find_section cfg section_id;
   ind_def ← dict (find_indicator section iid);
   mret (render_row (with_value ind_def v) c y p section_id true true),
   w').

(** The columns [indicator_id, value, unit] that [review] selects. *)
Record SelRow := {
  sel_indicator_id : string;
  sel_value : string;
  sel_unit : string
}.

Definition select_review (db : list Row) (c y p : string) : list SelRow :=
  (λ r, {| sel_indicator_id := indicator_id r; sel_value := value r;
           sel_unit := unit_ r |}) <$> rows_of_report c y p db.

(** [{row['indicator_id']: row for row in rows_sql}] *)
Definition data_map (rows_sql : list SelRow) : gmap string SelRow :=
  foldl (λ m row, <[sel_indicator_id row := row]> m) ∅ rows_sql.

(** Truth value of a Python string. *)
Definition truthy (s : string) : bool :=
  match s with
  | EmptyString => false
  | String _ _ => true
  end.

Record DisplayRow := {
  d_name : string;
  d_value : string;
  d_unit : string
}.

(** The [display_rows] that [review] hands to [REVIEW_HTML]. *)
Definition review (cfg : Config) (db : list Row) (c y p : string)
    : list DisplayRow :=
  let dm := data_map (select_review db c y p) in
  section ← sections cfg;
  ind ← indicators section;
  match dm !! ind_id ind with
  | Some row =>
      if truthy (sel_value row)
      then [{| d_name := ind_name ind; d_value := sel_value row;
               d_unit := ind_unit ind |}]
      else []
  | None => []
  end.

(** The [id_to_name] dictionary of [download_report]. *)
Definition id_to_name (cfg : Config) : gmap string string :=
  foldl (λ m s, foldl (λ m i, <[ind_id i := ind_name i]> m) m (indicators s))
        ∅ (sections cfg).

Definition csv_header : list string :=
  ["community"; "year"; "period"; "indicator_id"; "indicator_name"; "value";
   "unit"].

(** One record of [to_csv(index=False)]; a missing name (NaN) is written as
    the empty field. *)
Definition csv_record (names : gmap string string) (r : Row) : list string :=
  [community r; year r; period r; indicator_id r;
   default EmptyString (names !! indicator_id r); value r; unit_ r].

(** The records of the CSV stream, before the quoting of fields. *)
Definition download_report (cfg : Config) (db : list Row) (c y p : string)
    : list (list string) :=
  csv_header :: (csv_record (id_to_name cfg) <$> rows_of_report c y p db).

Definition download_filename (c y p : string) : string :=
  "GOYN_Report_" +:+ c +:+ "_" +:+ y +:+ "_" +:+ p +:+ ".csv".

(** ** The catalog and the store, as the review and the export are described *)

(** Every indicator of the catalog, in the order of declaration. *)
Definition all_indicators (cfg : Config) : list Indicator :=
  section ← sections cfg; indicators section.

(** The store holds a non-empty value for this indicator of the report. *)
Definition has_value (db : list Row) (c y p : string) (ind : Indicator)
    : Prop :=
  Exists (λ r, row_key r = (c, y, p, ind_id ind) ∧ value r ≠ EmptyString) db.

(** The review as described: the declared indicators that have a non-empty
    stored value, in declaration order, each with its stored value and with
    the name and unit of the catalog. *)
Definition review_spec (cfg : Config) (db : list Row) (c y p : string)
    : list DisplayRow :=
  (λ ind, {| d_name := ind_name ind;
             d_value := get_value_sql db c y p (ind_id ind);
             d_unit := ind_unit ind |})
  <$> filter (has_value db c y p) (all_indicators cfg).

(** The display name that the catalog gives to an indicator id: none when no
    indicator has the id, that of the last declaration when several have. *)
Definition config_name (cfg : Config) (iid : string) : option string :=
  ind_name <$> last (filter (λ i, ind_id i = iid) (all_indicators cfg)).

(** ** Sequences of writes *)

(** One call of [upsert_value_sql]: the reading of the clock and the six
    arguments. *)
Record Write := {
  at_time : string;
  to_community : string;
  to_year : string;
  to_period : string;
  to_indicator_id : string;
  new_value : string;
  new_unit : string
}.

Definition write_key (r : Write) : Key :=
  (to_community r, to_year r, to_period r, to_indicator_id r).

(** A row without its [last_updated]. *)
Definition without_timestamp (r : Row) : Row :=
  {| community := community r; year := year r; period := period r;
     indicator_id := indicator_id r; value := value r; unit_ := unit_ r;
     last_updated := EmptyString |}.

(** The row that a write in the active year stores. *)
Definition row_of_write (r : Write) : Row :=
  {| community := to_community r; year := to_year r; period := to_period r;
     indicator_id := to_indicator_id r; value := new_value r;
     unit_ := new_unit r; last_updated := at_time r |}.

Definition do_write (cfg : Config) (w : World) (r : Write) : World :=
  upsert_value_sql cfg (at_time r) w (to_community r) (to_year r)
    (to_period r) (to_indicator_id r) (new_value r) (new_unit r).

(** The calls made one after the other. *)
Definition do_writes (cfg : Config) (w : World) (l : list Write) : World :=
  foldl (do_write cfg) w l.

(** ** The section fragment ([INTERFACE_HTML]) and the pages *)

(** [s.endswith(suffix)] *)
Fixpoint endswith (s suffix : string) : bool :=
  if decide (s = suffix) then true
  else match s with
       | EmptyString => false
       | String _ rest => endswith rest suffix
       end.

(** The part of [s] before its last underscore, if it has one. *)
Fixpoint before_last_underscore (s : string) : option string :=
  match s with
  | EmptyString => None
  | String a rest =>
      match before_last_underscore rest with
      | Some t => Some (String a t)
      | None => if decide (a = "_"%char) then Some EmptyString else None
      end
  end.

(** [s.rsplit('_', 1)[0]] *)
Definition rsplit_prefix (s : string) : string :=
  default s (before_last_underscore s).

(** The [oninput] attribute of the input of [ROW_HTML_STR]: the argument of
    the client-side [autoSum], when the attribute is there. *)
Definition autosum (ind : Item) (editable : bool) : option string :=
  if editable && negb (item_derived ind) &&
     (endswith (item_id ind) "_male" || endswith (item_id ind) "_female"
      || endswith (item_id ind) "_nb")
  then Some (rsplit_prefix (item_id ind))
  else None.

(** A button of the section bar; [btn_active] is the highlight
    [s.id == section_id]. *)
Record Button := {
  btn_section_id : string;
  btn_name : string;
  btn_active : bool
}.

Record Interface := {
  buttons : list Button;
  heading : string;
  subheading : string;
  rows : list RowHtml
}.

(** The loop that fills [rendered]: [dict(ind)] with the stored value. *)
Definition rendered (section : SectionDef) (db : list Row) (c y p : string)
    : list Item :=
  (λ ind, with_value ind (get_value_sql db c y p (ind_id ind)))
  <$> indicators section.

(** [INTERFACE_HTML]; the rows are rendered without [saved]. *)
Definition render_interface (cfg : Config) (section : SectionDef)
    (items : list Item) (c y p : string) (editable : bool)
    (section_id : string) : Interface :=
  {| buttons := (λ s, {| btn_section_id := sec_id s; btn_name := sec_name s;
                         btn_active := bool_decide (sec_id s = section_id) |})
                <$> sections cfg;
     heading := sec_name section;
     subheading := sec_description section;
     rows := (λ ind, render_row ind c y p section_id editable false)
             <$> items |}.

Definition switch (cfg : Config) (db : list Row) (c y p section_id : string)
    : result Interface :=
  section ← find_section cfg section_id;
  mret (render_interface cfg section (rendered section db c y p) c y p
          (bool_decide (y = active_year cfg)) section_id).

(** What [BASE_HTML] shows below the navigation bar: the welcome box, or
    the header of the report (the review link only when [editable]) and the
    section fragment. The three selectors of the bar are left out. *)
Inductive Body :=
  | Welcome
  | Report (editable : bool) (review_link : option (string * string * string))
           (interface : Interface).

Record Page := {
  title : string;
  page_community : string;
  page_year : string;
  page_period : string;
  body : Body
}.

(** The index route; an argument that the request does not give is [None]
    and takes the default of the signature. The default of [section_id],
    [CONFIG["sections"][0]["id"]], is evaluated when the route is defined. *)
Definition index (cfg : Config) (db : list Row)
    (community_arg year_arg period_arg section_id_arg : option string)
    : result Page :=
  match sections cfg with
  | [] => Raise IndexError
  | s0 :: _ =>
      let c := default "Select Community" community_arg in
      let y := default (active_year cfg) year_arg in
      let p := default "Annual Total" period_arg in
      let section_id := default (sec_id s0) section_id_arg in
      if decide (c = "Select Community")
      then mret {| title := app_title cfg; page_community := c;
                   page_year := y; page_period := p; body := Welcome |}
      else
        section ← find_section cfg section_id;
        let editable := bool_decide (y = active_year cfg) in
        let interface :=
          render_interface cfg section (rendered section db c y p) c y p
            editable section_id in
        mret {| title := app_title cfg; page_community := c;
                page_year := y; page_period := p;
                body := Report editable
                          (if editable then Some (c, y, p) else None)
                          interface |}
  end.



(** ** A small configuration and table, used in the examples below *)

Definition pop_male : Indicator :=
  {| ind_id := "pop_male"; ind_name := "Population (male)";
     ind_unit := "count"; ind_derived := false |}.

Definition pop_female : Indicator :=
  {| ind_id := "pop_female"; ind_name := "Population (female)";
     ind_unit := "count"; ind_derived := false |}.

Definition pop_total : Indicator :=
  {| ind_id := "pop_total"; ind_name := "Population (total)";
     ind_unit := "count"; ind_derived := true |}.

Definition notes : Indicator :=
  {| ind_id := "notes"; ind_name := "Notes";
     ind_unit := "Text"; ind_derived := false |}.

Definition population : SectionDef :=
  {| sec_id := "population"; sec_name := "Population";
     sec_description := "Head counts";
     indicators := [pop_male; pop_female; pop_total] |}.

Definition remarks : SectionDef :=
  {| sec_id := "remarks"; sec_name := "Remarks";
     sec_description := "Free text"; indicators := [notes] |}.

Definition demo_sections : list SectionDef := [population; remarks].

(** Active year 2024, no [google_sheets] entry: the sync is off. *)
Definition demo_cfg : Config :=
  {| app_title := "GOYN"; active_year := "2024";
     sections := demo_sections; google_sheets := None |}.

(** The same with the sync switched on. *)
Definition demo_cfg_sync : Config :=
  {| app_title := "GOYN"; active_year := "2024";
     sections := demo_sections;
     google_sheets := Some {| enabled := true;
                              credentials_file := Some "creds.json";
                              sheet_name := Some "GOYN" |} |}.

Definition empty_world : World :=
  {| reports := []; threads := 0; stdout := [] |}.

Definition demo_row (y i v : string) : Row :=
  {| community := "Acme"; year := y; period := "Annual Total";
     indicator_id := i; value := v; unit_ := "count";
     last_updated := "2024-03-01 10:00:00" |}.

Definition write_male : Write :=
  {| at_time := "2024-03-02 09:00:00"; to_community := "Acme";
     to_year := "2024"; to_period := "Annual Total";
     to_indicator_id := "pop_male"; new_value := "10"; new_unit := "count" |}.

Definition write_notes : Write :=
  {| at_time := "2024-03-02 09:01:00"; to_community := "Acme";
     to_year := "2024"; to_period := "Annual Total";
     to_indicator_id := "notes"; new_value := "census of March";
     new_unit := "Text" |}.

Definition write_stale : Write :=
  {| at_time := "2024-03-02 09:02:00"; to_community := "Acme";
     to_year := "2023"; to_period := "Annual Total";
     to_indicator_id := "pop_male"; new_value := "99"; new_unit := "count" |}.

Definition demo_world : World :=
  {| reports := [demo_row "2023" "pop_male" "7";
                 demo_row "2024" "pop_female" "12";
                 demo_row "2024" "pop_total" EmptyString;
                 demo_row "2024" "retired_indicator" "3"];
     threads := 0; stdout := [] |}.

(** ** The table under [insert_or_update] *)

Section table.
Implicit Types (db : list Row) (new r : Row) (k : Key).

Lemma conflict_row_eq r new :
  row_key r = row_key new →
  {| community := community r; year := year r; period := period r;
     indicator_id := indicator_id r; value := value new;
     unit_ := unit_ new; last_updated := last_updated new |} = new.
Proof.
  destruct r, new; unfold row_key; simpl. intros [= -> -> -> ->]. done.
Qed.

Lemma insert_or_update_cons new r db :
  insert_or_update new (r :: db) =
  if decide (row_key r = row_key new) then new :: db
  else r :: insert_or_update new db.
Proof.
  simpl. destruct (decide (row_key r = row_key new)) as [Hk|]; [|done].
  by rewrite (conflict_row_eq r new Hk).
Qed.

Lemma rows_at_cons k r db :
  rows_at k (r :: db) =
  if decide (row_key r = k) then r :: rows_at k db else rows_at k db.
Proof. unfold rows_at. by rewrite filter_cons. Qed.

Lemma rows_at_absent k db : k ∉ row_key <$> db → rows_at k db = [].
Proof.
  induction db as [|r db IH]; [done|].
  rewrite fmap_cons, not_elem_of_cons, rows_at_cons. intros [Hne Hnot].
  destruct (decide (row_key r = k)); [congruence | auto].
Qed.

Lemma rows_at_elem k r db : r ∈ rows_at k db ↔ r ∈ db ∧ row_key r = k.
Proof. unfold rows_at. rewrite list_elem_of_filter. tauto. Qed.

(** The new row is the first one found at its key. *)
Lemma head_rows_at_insert new db :
  head (rows_at (row_key new) (insert_or_update new db)) = Some new.
Proof.
  induction db as [|r db IH].
  - simpl. rewrite rows_at_cons. by rewrite decide_True.
  - rewrite insert_or_update_cons.
    destruct (decide (row_key r = row_key new)) as [Hk|Hk].
    + rewrite rows_at_cons. by rewrite decide_True.
    + rewrite rows_at_cons. by rewrite decide_False.
Qed.

(** Under the primary key it is the only one. *)
Lemma rows_at_insert new db :
  wf_table db → rows_at (row_key new) (insert_or_update new db) = [new].
Proof.
  unfold wf_table. induction db as [|r db IH]; intros Hwf.
  - simpl. rewrite rows_at_cons, decide_True by done. done.
  - rewrite fmap_cons, NoDup_cons in Hwf. destruct Hwf as [Hnotin Hwf].
    rewrite insert_or_update_cons.
    destruct (decide (row_key r = row_key new)) as [Hk|Hk].
    + rewrite rows_at_cons, decide_True by done.
      rewrite rows_at_absent; [done | by rewrite <- Hk].
    + rewrite rows_at_cons, decide_False by done. auto.
Qed.

(** Rows at other keys stay as they are, in the same order. *)
Lemma others_insert new db :
  filter (λ r, row_key r ≠ row_key new) (insert_or_update new db) =
  filter (λ r, row_key r ≠ row_key new) db.
Proof.
  induction db as [|r db IH].
  - simpl. rewrite filter_cons, decide_False; [done | by intros []].
  - rewrite insert_or_update_cons.
    destruct (decide (row_key r = row_key new)) as [Hk|Hk].
    + rewrite !filter_cons. rewrite !decide_False; [done | | ]; by intros [].
    + rewrite !filter_cons, IH. done.
Qed.

Lemma rows_at_insert_other k new db :
  k ≠ row_key new → rows_at k (insert_or_update new db) = rows_at k db.
Proof.
  intros Hne. induction db as [|r db IH].
  - simpl. rewrite rows_at_cons, decide_False by done. done.
  - rewrite insert_or_update_cons.
    destruct (decide (row_key r = row_key new)) as [Hk|Hk].
    + rewrite !rows_at_cons, !decide_False by congruence. done.
    + rewrite !rows_at_cons, IH. done.
Qed.

Lemma keys_insert new db :
  row_key <$> insert_or_update new db =
  if decide (row_key new ∈ row_key <$> db) then row_key <$> db
  else ((row_key <$> db) ++ [row_key new])%list.
Proof.
  induction db as [|r db IH].
  - destruct (decide _) as [Hin|Hin]; [by apply elem_of_nil in Hin | done].
  - rewrite insert_or_update_cons, fmap_cons.
    destruct (decide (row_key r = row_key new)) as [Hk|Hk].
    + rewrite decide_True by (rewrite Hk; left). by rewrite fmap_cons, Hk.
    + rewrite fmap_cons, IH.
      destruct (decide (row_key new ∈ row_key <$> db)) as [Hin|Hin].
      * rewrite decide_True by (by right). done.
      * rewrite decide_False; [done|].
        rewrite not_elem_of_cons. split; [congruence | done].
Qed.

(** The statement keeps the primary key. *)
Lemma wf_insert_or_update new db :
  wf_table db → wf_table (insert_or_update new db).
Proof.
  unfold wf_table. intros Hwf. rewrite keys_insert.
  destruct (decide (row_key new ∈ row_key <$> db)) as [Hin|Hin]; [done|].
  apply NoDup_app. split_and!; [done | | apply NoDup_singleton].
  intros k Hk. rewrite list_elem_of_singleton. by intros ->.
Qed.

Lemma wf_nil : wf_table [].
Proof. apply NoDup_nil_2. Qed.

Lemma get_value_sql_head db c y p i :
  get_value_sql db c y p i =
  from_option value EmptyString (head (rows_at (c, y, p, i) db)).
Proof. unfold get_value_sql. by destruct (head _). Qed.
End table.

Lemma reports_sync cfg w :
  reports (sync_to_google_background cfg w) = reports w.
Proof. unfold sync_to_google_background. by destruct (negb _). Qed.

Lemma stdout_sync cfg w :
  stdout (sync_to_google_background cfg w) = stdout w.
Proof. unfold sync_to_google_background. by destruct (negb _). Qed.

Lemma upsert_active cfg now w c y p i v u :
  y = active_year cfg →
  reports (upsert_value_sql cfg now w c y p i v u) =
  insert_or_update
    {| community := c; year := y; period := p; indicator_id := i;
       value := v; unit_ := u; last_updated := now |} (reports w).
Proof.
  intros Hy. unfold upsert_value_sql.
  rewrite decide_False by (by intros []). by rewrite reports_sync.
Qed.

Lemma upsert_inactive cfg now w c y p i v u :
  y ≠ active_year cfg → upsert_value_sql cfg now w c y p i v u = w.
Proof. intros Hy. unfold upsert_value_sql. by rewrite decide_True. Qed.

(** Every table reached from a well-formed one by [upsert_value_sql] is
    well formed. *)
Lemma wf_upsert cfg now w c y p i v u :
  wf_table (reports w) →
  wf_table (reports (upsert_value_sql cfg now w c y p i v u)).
Proof.
  intros Hwf. destruct (decide (y = active_year cfg)) as [Hy|Hy].
  - rewrite upsert_active by done. by apply wf_insert_or_update.
  - by rewrite upsert_inactive.
Qed.

(** ** Dictionaries built by a loop of assignments *)

Section dict_of_loop.
Context {A V : Type} (key : A → string) (val : A → V).

(** After [for a in l: m[key a] = val a], a lookup finds the last [a] of
    [l] with that key, and otherwise what [m] held. *)
Lemma foldl_insert_lookup (l : list A) (m : gmap string V) (i : string) :
  foldl (λ m a, <[key a := val a]> m) m l !! i =
  match last (filter (λ a, key a = i) l) with
  | Some a => Some (val a)
  | None => m !! i
  end.
Proof.
  induction l as [|a l IH] using rev_ind; [done|].
  rewrite foldl_snoc, filter_app, filter_cons, filter_nil.
  destruct (decide (key a = i)) as [Hk|Hk].
  - rewrite last_snoc, Hk. apply lookup_insert_eq.
  - rewrite app_nil_r, lookup_insert_ne by done. apply IH.
Qed.
End dict_of_loop.

Lemma id_to_name_foldl cfg :
  id_to_name cfg =
  foldl (λ m i, <[ind_id i := ind_name i]> m) ∅ (all_indicators cfg).
Proof.
  unfold id_to_name, all_indicators. generalize (∅ : gmap string string).
  induction (sections cfg) as [|s ss IH]; intros m; [done|].
  rewrite bind_cons, foldl_app. simpl. apply IH.
Qed.

Lemma id_to_name_lookup cfg iid :
  id_to_name cfg !! iid = config_name cfg iid.
Proof.
  rewrite id_to_name_foldl, foldl_insert_lookup. unfold config_name.
  by destruct (last _).
Qed.

(** ** The lookup table of the review *)

Lemma rows_at_unique k db :
  wf_table db → rows_at k db = [] ∨ ∃ r, rows_at k db = [r].
Proof.
  unfold wf_table. induction db as [|r db IH]; [by left|].
  rewrite fmap_cons, NoDup_cons. intros [Hnotin Hwf]. rewrite rows_at_cons.
  destruct (decide (row_key r = k)) as [Hk|Hk]; [|auto].
  right. exists r. rewrite rows_at_absent; [done | by rewrite <- Hk].
Qed.

Lemma select_review_filter db c y p i :
  filter (λ row, sel_indicator_id row = i) (select_review db c y p) =
  (λ r, {| sel_indicator_id := indicator_id r; sel_value := value r;
           sel_unit := unit_ r |}) <$> rows_at (c, y, p, i) db.
Proof.
  unfold select_review, rows_of_report, rows_at.
  induction db as [|r db IH]; [done|].
  rewrite !(filter_cons _ r).
  destruct (decide (community r = c ∧ year r = y ∧ period r = p))
    as [(Hc & Hy & Hp)|Hn].
  - rewrite fmap_cons, filter_cons. simpl.
    destruct (decide (indicator_id r = i)) as [Hi|Hi].
    + rewrite decide_True by (unfold row_key; congruence).
      by rewrite fmap_cons, IH.
    + rewrite decide_False by (unfold row_key; congruence). done.
  - rewrite decide_False; [done|].
    unfold row_key. intros [= ? ? ? ?]. apply Hn. done.
Qed.

(** Under the primary key, the dictionary of [review] holds at an indicator
    id the row that the point query finds. *)
Lemma data_map_lookup db c y p i :
  wf_table db →
  data_map (select_review db c y p) !! i =
  (λ r, {| sel_indicator_id := indicator_id r; sel_value := value r;
           sel_unit := unit_ r |}) <$> head (rows_at (c, y, p, i) db).
Proof.
  intros Hwf. unfold data_map.
  rewrite (foldl_insert_lookup sel_indicator_id id), select_review_filter.
  destruct (rows_at_unique (c, y, p, i) db Hwf) as [->|[r ->]]; done.
Qed.

Lemma truthy_nonempty s : truthy s = true ↔ s ≠ EmptyString.
Proof. destruct s; simpl; split; congruence. Qed.

Lemma has_value_get db c y p ind :
  wf_table db →
  has_value db c y p ind ↔ get_value_sql db c y p (ind_id ind) ≠ EmptyString.
Proof.
  intros Hwf. unfold has_value, get_value_sql. rewrite Exists_exists.
  destruct (rows_at_unique (c, y, p, ind_id ind) db Hwf) as [E|[r E]];
    rewrite E; simpl.
  - split; [|done]. intros (r & Hr & Hk & _).
    assert (r ∈ rows_at (c, y, p, ind_id ind) db) as Hin
      by (by apply rows_at_elem).
    rewrite E in Hin. by apply elem_of_nil in Hin.
  - assert (r ∈ rows_at (c, y, p, ind_id ind) db) as Hin by (rewrite E; left).
    apply rows_at_elem in Hin as [Hr Hk]. split.
    + intros (r' & Hr' & Hk' & Hv).
      assert (r' ∈ rows_at (c, y, p, ind_id ind) db) as Hin'
        by (by apply rows_at_elem).
      rewrite E in Hin'. apply list_elem_of_singleton in Hin'. by subst.
    + intros Hv. by exists r.
Qed.

Lemma fmap_filter_bind {B C} (P : B → Prop) `{∀ x, Decision (P x)}
    (g : B → C) (l : list B) :
  g <$> filter P l = l ≫= (λ x, if decide (P x) then [g x] else []).
Proof.
  induction l as [|x l IH]; [done|].
  rewrite filter_cons, bind_cons. destruct (decide (P x)).
  - by rewrite fmap_cons, IH.
  - by rewrite IH.
Qed.

Lemma review_bind cfg db c y p :
  review cfg db c y p =
  all_indicators cfg ≫= (λ ind,
    match data_map (select_review db c y p) !! ind_id ind with
    | Some row =>
        if truthy (sel_value row)
        then [{| d_name := ind_name ind; d_value := sel_value row;
                 d_unit := ind_unit ind |}]
        else []
    | None => []
    end).
Proof.
  unfold review, all_indicators.
  induction (sections cfg) as [|s ss IH]; [done|].
  rewrite !bind_cons, bind_app. by rewrite IH.
Qed.

Lemma review_refines cfg db c y p :
  wf_table db → review cfg db c y p = review_spec cfg db c y p.
Proof.
  intros Hwf. rewrite review_bind. unfold review_spec.
  rewrite fmap_filter_bind. apply list_bind_ext; [|done].
  intros ind. rewrite data_map_lookup by done.
  destruct (decide (has_value db c y p ind)) as [Hv|Hv];
    rewrite has_value_get in Hv by done;
    unfold get_value_sql in *;
    destruct (head (rows_at (c, y, p, ind_id ind) db)) as [r|]; simpl in *;
    try done.
  - apply truthy_nonempty in Hv. by rewrite Hv.
  - destruct (truthy (value r)) eqn:Ht; [|done].
    apply truthy_nonempty in Ht. by destruct Hv.
Qed.

(** The order in which the engine enumerates the rows does not show in the
    review. *)
Lemma get_value_sql_perm db db' c y p i :
  wf_table db → db ≡ₚ db' →
  get_value_sql db c y p i = get_value_sql db' c y p i.
Proof.
  intros Hwf Hp.
  assert (wf_table db') as Hwf' by (unfold wf_table in *; by rewrite <- Hp).
  assert (rows_at (c, y, p, i) db ≡ₚ rows_at (c, y, p, i) db') as Hperm
    by (unfold rows_at; by rewrite Hp).
  unfold get_value_sql.
  destruct (rows_at_unique (c, y, p, i) db Hwf) as [E|[r E]]; rewrite E in *.
  - symmetry in Hperm. apply Permutation_nil_r in Hperm. by rewrite Hperm.
  - apply Permutation_singleton_l in Hperm. by rewrite <- Hperm.
Qed.

(** ** The background sync *)

Lemma run_sync_returns cfg env w : fst (_run_sync cfg env w) = Ok tt.
Proof. unfold _run_sync. by destruct (sync_body cfg env). Qed.

Lemma run_sync_reports cfg env w :
  reports (snd (_run_sync cfg env w)) = reports w.
Proof. unfold _run_sync. by destruct (sync_body cfg env). Qed.

Lemma run_sync_logs cfg env w :
  stdout (snd (_run_sync cfg env w)) =
  (stdout w ++ [match sync_body cfg env with
                | Ok _ => SyncComplete
                | Raise e => SyncError e
                end])%list.
Proof. unfold _run_sync. by destruct (sync_body cfg env). Qed.

Lemma run_thread_returns cfg env w : fst (run_thread cfg env w) = Ok tt.
Proof.
  unfold run_thread. destruct (threads w); [done | apply run_sync_returns].
Qed.

Lemma run_thread_reports cfg env w :
  reports (snd (run_thread cfg env w)) = reports w.
Proof.
  unfold run_thread. destruct (threads w); [done|]. by rewrite run_sync_reports.
Qed.

Lemma threads_upsert cfg now w c y p i v u :
  threads (upsert_value_sql cfg now w c y p i v u) =
  if decide (y = active_year cfg)
  then if sync_enabled cfg then S (threads w) else threads w
  else threads w.
Proof.
  unfold upsert_value_sql, sync_to_google_background.
  destruct (decide (y = active_year cfg)) as [Hy|Hy].
  - rewrite decide_False by (by intros []). by destruct (sync_enabled cfg).
  - by rewrite decide_True.
Qed.

Lemma stdout_upsert cfg now w c y p i v u :
  stdout (upsert_value_sql cfg now w c y p i v u) = stdout w.
Proof.
  unfold upsert_value_sql. destruct (decide _); [done|]. by rewrite stdout_sync.
Qed.

(** ** The save route *)

Lemma save_world cfg now w c y p sid iid v u :
  snd (save cfg now w c y p sid iid v u) =
  upsert_value_sql cfg now w c y p iid v u.
Proof. done. Qed.

(** An indicator id that the section does not declare makes [dict(None)]
    raise, after the write. *)
Lemma save_unknown_indicator cfg now w c y p sid iid v u section :
  find_section cfg sid = Ok section →
  find_indicator section iid = None →
  fst (save cfg now w c y p sid iid v u) = Raise TypeError.
Proof. intros Hs Hi. unfold save. simpl. rewrite Hs. simpl. by rewrite Hi. Qed.

Lemma save_known_indicator cfg now w c y p sid iid v u section ind :
  find_section cfg sid = Ok section →
  find_indicator section iid = Some ind →
  fst (save cfg now w c y p sid iid v u) =
  Ok (render_row (with_value ind v) c y p sid true true).
Proof. intros Hs Hi. unfold save. simpl. rewrite Hs. simpl. by rewrite Hi. Qed.

(** ** Properties of the report store *)

(** C1: for a year equal to the configured active year, [upsert_value_sql]
    followed by [get_value_sql] with the same key returns exactly the
    written value. *)
Theorem upsert_then_get cfg now w c y p i v u :
  y = active_year cfg →
  get_value_sql (reports (upsert_value_sql cfg now w c y p i v u)) c y p i = v.
Proof.
  intros Hy. rewrite upsert_active by done.
  set (new := {| community := c; year := y; period := p; indicator_id := i;
                 value := v; unit_ := u; last_updated := now |}).
  rewrite get_value_sql_head.
  change (c, y, p, i) with (row_key new).
  by rewrite head_rows_at_insert.
Qed.

Lemma upsert_then_get_witness :
  "2024" = active_year demo_cfg ∧
  get_value_sql
    (reports (upsert_value_sql demo_cfg "2024-03-02 09:00:00" demo_world
                "Acme" "2024" "Annual Total" "pop_male" "10" "count"))
    "Acme" "2024" "Annual Total" "pop_male" = "10".
Proof. split; [reflexivity | apply upsert_then_get; reflexivity]. Defined.

(** C2: for a year different from the configured active year,
    [upsert_value_sql] is a silent no-op: it returns, the state is the one
    before the call (no entry created or modified, no sync started), and
    [get_value_sql] with the same key returns what it returned before, the
    empty string when no entry existed. *)
Theorem upsert_inactive_year_noop cfg now w c y p i v u :
  y ≠ active_year cfg →
  upsert_value_sql cfg now w c y p i v u = w ∧
  get_value_sql (reports (upsert_value_sql cfg now w c y p i v u)) c y p i =
    get_value_sql (reports w) c y p i ∧
  ((c, y, p, i) ∉ row_key <$> reports w →
   get_value_sql (reports (upsert_value_sql cfg now w c y p i v u)) c y p i =
     EmptyString).
Proof.
  intros Hy. rewrite upsert_inactive by done. split_and!; [done..|].
  intros Habs. rewrite get_value_sql_head. by rewrite rows_at_absent.
Qed.

Lemma upsert_inactive_year_noop_witness :
  "2023" ≠ active_year demo_cfg ∧
  upsert_value_sql demo_cfg "2024-03-02 09:00:00" demo_world
    "Acme" "2023" "Annual Total" "pop_male" "99" "count" = demo_world ∧
  get_value_sql
    (reports (upsert_value_sql demo_cfg "2024-03-02 09:00:00" demo_world
                "Acme" "2023" "Annual Total" "pop_male" "99" "count"))
    "Acme" "2023" "Annual Total" "pop_male" =
  get_value_sql (reports demo_world) "Acme" "2023" "Annual Total" "pop_male" ∧
  (("Acme", "2023", "Annual Total", "pop_male") ∉ row_key <$> reports demo_world →
   get_value_sql
     (reports (upsert_value_sql demo_cfg "2024-03-02 09:00:00" demo_world
                 "Acme" "2023" "Annual Total" "pop_male" "99" "count"))
     "Acme" "2023" "Annual Total" "pop_male" = EmptyString).
Proof.
  split; [simpl; discriminate|].
  apply upsert_inactive_year_noop. simpl. discriminate.
Defined.

(** C5: in the active year, [upsert] of [v1] and then of [v2] at the same
    key of a table that respects its primary key leaves exactly one entry at
    that key, holding the value, unit and timestamp of the second write. *)
Theorem upsert_overwrites cfg now1 now2 w c y p i v1 u1 v2 u2 :
  wf_table (reports w) →
  y = active_year cfg →
  let w1 := upsert_value_sql cfg now1 w c y p i v1 u1 in
  let w2 := upsert_value_sql cfg now2 w1 c y p i v2 u2 in
  rows_at (c, y, p, i) (reports w2) =
    [{| community := c; year := y; period := p; indicator_id := i;
        value := v2; unit_ := u2; last_updated := now2 |}] ∧
  get_value_sql (reports w2) c y p i = v2.
Proof.
  intros Hwf Hy w1 w2.
  assert (wf_table (reports w1)) as Hwf1 by (by apply wf_upsert).
  subst w2. rewrite upsert_active by done.
  set (new := {| community := c; year := y; period := p; indicator_id := i;
                 value := v2; unit_ := u2; last_updated := now2 |}).
  change (c, y, p, i) with (row_key new).
  assert (rows_at (row_key new) (insert_or_update new (reports w1)) = [new])
    as E by (by apply rows_at_insert).
  split; [done|].
  rewrite get_value_sql_head.
  change (c, y, p, i) with (row_key new). by rewrite E.
Qed.

Lemma demo_world_wf : wf_table (reports demo_world).
Proof. by apply (bool_decide_unpack _). Defined.

Lemma upsert_overwrites_witness :
  wf_table (reports demo_world) ∧
  "2024" = active_year demo_cfg ∧
  let w1 := upsert_value_sql demo_cfg "2024-03-02 09:00:00" demo_world
              "Acme" "2024" "Annual Total" "pop_female" "13" "count" in
  let w2 := upsert_value_sql demo_cfg "2024-03-02 09:05:00" w1
              "Acme" "2024" "Annual Total" "pop_female" "14" "persons" in
  rows_at ("Acme", "2024", "Annual Total", "pop_female") (reports w2) =
    [{| community := "Acme"; year := "2024"; period := "Annual Total";
        indicator_id := "pop_female"; value := "14"; unit_ := "persons";
        last_updated := "2024-03-02 09:05:00" |}] ∧
  get_value_sql (reports w2) "Acme" "2024" "Annual Total" "pop_female" = "14".
Proof.
  split_and!; [exact demo_world_wf | reflexivity |].
  apply upsert_overwrites; [exact demo_world_wf | reflexivity].
Defined.

(** C6: an [upsert] at a key, written or rejected, leaves every other key
    alone: the rows at a different key, and what [get] returns there, are
    the same before and after, and so is the whole sequence of rows whose
    key is not the written one. *)
Theorem upsert_frame cfg now w c y p i v u c' y' p' i' :
  (c', y', p', i') ≠ (c, y, p, i) →
  let w' := upsert_value_sql cfg now w c y p i v u in
  rows_at (c', y', p', i') (reports w') = rows_at (c', y', p', i') (reports w) ∧
  get_value_sql (reports w') c' y' p' i' =
    get_value_sql (reports w) c' y' p' i' ∧
  filter (λ r, row_key r ≠ (c, y, p, i)) (reports w') =
    filter (λ r, row_key r ≠ (c, y, p, i)) (reports w).
Proof.
  intros Hne w'. subst w'.
  destruct (decide (y = active_year cfg)) as [Hy|Hy].
  - rewrite upsert_active by done.
    set (new := {| community := c; year := y; period := p; indicator_id := i;
                   value := v; unit_ := u; last_updated := now |}).
    change (c, y, p, i) with (row_key new) in *.
    rewrite !get_value_sql_head, rows_at_insert_other by done.
    split_and!; [done..|]. apply others_insert.
  - by rewrite upsert_inactive.
Qed.

Lemma upsert_frame_witness :
  ("Acme", "2024", "Annual Total", "pop_female") ≠
    ("Acme", "2024", "Annual Total", "pop_male") ∧
  let w' := upsert_value_sql demo_cfg "2024-03-02 09:00:00" demo_world
              "Acme" "2024" "Annual Total" "pop_male" "10" "count" in
  rows_at ("Acme", "2024", "Annual Total", "pop_female") (reports w') =
    rows_at ("Acme", "2024", "Annual Total", "pop_female") (reports demo_world) ∧
  get_value_sql (reports w') "Acme" "2024" "Annual Total" "pop_female" =
    get_value_sql (reports demo_world) "Acme" "2024" "Annual Total" "pop_female" ∧
  filter (λ r, row_key r ≠ ("Acme", "2024", "Annual Total", "pop_male"))
         (reports w') =
    filter (λ r, row_key r ≠ ("Acme", "2024", "Annual Total", "pop_male"))
           (reports demo_world).
Proof. split; [discriminate | apply upsert_frame; discriminate]. Defined.

(** C7: for a key with no stored entry, [get_value_sql] returns the empty
    string. *)
Theorem get_absent_empty (db : list Row) c y p i :
  (c, y, p, i) ∉ row_key <$> db →
  get_value_sql db c y p i = EmptyString.
Proof.
  intros Habs. rewrite get_value_sql_head. by rewrite rows_at_absent.
Qed.

Lemma get_absent_empty_witness :
  (("Acme", "2024", "Annual Total", "pop_male")
     ∉ (row_key <$> reports demo_world)) ∧
  get_value_sql (reports demo_world) "Acme" "2024" "Annual Total" "pop_male" =
  EmptyString.
Proof.
  split; [by apply (bool_decide_unpack _)|].
  apply get_absent_empty. by apply (bool_decide_unpack _).
Defined.

(** ** Review and export *)

(** C3: on a table that respects its primary key, the rows of the review
    are the declared indicators, in declaration order, that have an entry
    with a non-empty value for the report; the others are left out, and
    each row carries the name and unit of the catalog and the stored
    value. *)
Theorem review_order cfg db c y p :
  wf_table db →
  review cfg db c y p =
  (λ ind, {| d_name := ind_name ind;
             d_value := get_value_sql db c y p (ind_id ind);
             d_unit := ind_unit ind |})
  <$> filter (has_value db c y p) (all_indicators cfg).
Proof. intros Hwf. by rewrite review_refines. Qed.

Lemma review_order_witness :
  wf_table (reports demo_world) ∧
  review demo_cfg (reports demo_world) "Acme" "2024" "Annual Total" =
  (λ ind, {| d_name := ind_name ind;
             d_value := get_value_sql (reports demo_world)
                          "Acme" "2024" "Annual Total" (ind_id ind);
             d_unit := ind_unit ind |})
  <$> filter (has_value (reports demo_world) "Acme" "2024" "Annual Total")
             (all_indicators demo_cfg).
Proof. split; [exact demo_world_wf | apply review_order, demo_world_wf]. Defined.

(** The example of the description: of the indicators declared in the order
    A, B, C, only B and C have a non-empty stored value. *)
Example review_abc :
  let ind n := {| ind_id := n; ind_name := n; ind_unit := "count";
                  ind_derived := false |} in
  let cfg := {| app_title := "GOYN"; active_year := "2024";
                sections := [ {| sec_id := "s1"; sec_name := "One";
                                 sec_description := EmptyString;
                                 indicators := [ind "A"; ind "B"] |};
                              {| sec_id := "s2"; sec_name := "Two";
                                 sec_description := EmptyString;
                                 indicators := [ind "C"] |} ];
                google_sheets := None |} in
  review cfg [demo_row "2024" "C" "3"; demo_row "2024" "A" EmptyString;
              demo_row "2024" "B" "2"] "Acme" "2024" "Annual Total" =
  [ {| d_name := "B"; d_value := "2"; d_unit := "count" |};
    {| d_name := "C"; d_value := "3"; d_unit := "count" |} ].
Proof. vm_compute. reflexivity. Qed.


Example download_report_empty :
  download_report demo_cfg (reports demo_world) "Acme" "2022" "Q1" =
  [csv_header].
Proof. vm_compute. reflexivity. Qed.

(** ** The sync and the response of a save *)

(** C9, as the code has it: a write in the active year starts one sync
    thread when the configuration enables the sync and none when it does
    not, a rejected write starts none; a sync thread that runs returns
    whatever its calls raise, leaves the table as it is, and prints the
    exception it caught. *)
Theorem sync_after_upsert cfg now w c y p i v u env :
  let w' := upsert_value_sql cfg now w c y p i v u in
  threads w' =
    (if decide (y = active_year cfg)
     then if sync_enabled cfg then S (threads w) else threads w
     else threads w) ∧
  stdout w' = stdout w ∧
  fst (run_thread cfg env w') = Ok tt ∧
  reports (snd (run_thread cfg env w')) = reports w' ∧
  fst (_run_sync cfg env w') = Ok tt ∧
  reports (snd (_run_sync cfg env w')) = reports w' ∧
  stdout (snd (_run_sync cfg env w')) =
    (stdout w' ++ [match sync_body cfg env with
                   | Ok _ => SyncComplete
                   | Raise e => SyncError e
                   end])%list.
Proof.
  intros w'. split_and!.
  - apply threads_upsert.
  - apply stdout_upsert.
  - apply run_thread_returns.
  - apply run_thread_reports.
  - apply run_sync_returns.
  - apply run_sync_reports.
  - apply run_sync_logs.
Qed.

(** C9 as stated fails: without a [google_sheets] entry in the
    configuration, a write in the active year stores the value and starts
    no sync. *)
Lemma sync_not_started_when_disabled :
  let w' := upsert_value_sql demo_cfg "2024-03-02 09:00:00" empty_world
              "Acme" "2024" "Annual Total" "pop_male" "10" "count" in
  active_year demo_cfg = "2024" ∧
  get_value_sql (reports w') "Acme" "2024" "Annual Total" "pop_male" = "10" ∧
  threads w' = threads empty_world ∧
  threads w' ≠ S (threads empty_world).
Proof. vm_compute. split_and!; [reflexivity..|discriminate]. Qed.

(** With the sync enabled, a failing authorization is caught and printed. *)
Example sync_failure_logged :
  let env s := match s with
               | Authorize => Some (ExternalError "auth")
               | _ => None
               end in
  let w' := upsert_value_sql demo_cfg_sync "2024-03-02 09:00:00" empty_world
              "Acme" "2024" "Annual Total" "pop_male" "10" "count" in
  threads w' = 1 ∧
  run_thread demo_cfg_sync env w' =
    (Ok tt, {| reports := reports w'; threads := 0;
               stdout := [SyncError (ExternalError "auth")] |}).
Proof. vm_compute. split; reflexivity. Qed.

(** C4: a save request for an indicator id that the section does not
    declare. The route has written the entry when [dict(None)] raises
    [TypeError]; nothing rejects the request as a client error. *)
Theorem save_unknown_indicator_raises :
  let r := save demo_cfg "2024-03-02 09:00:00" demo_world
             "Acme" "2024" "Annual Total" "population" "nope" "1" "count" in
  fst r = Raise TypeError ∧
  get_value_sql (reports (snd r)) "Acme" "2024" "Annual Total" "nope" = "1" ∧
  get_value_sql (reports demo_world) "Acme" "2024" "Annual Total" "nope" =
    EmptyString.
Proof. vm_compute. split_and!; reflexivity. Qed.

(** C10: for a save request whose indicator the section declares, the row
    fragment shows the submitted value, is rendered with [editable] and
    [saved] set (not locked, with the flash and the Saved badge), whether or
    not the write took place; for a year other than the active one the
    state, and so the stored value, is the one before the request. *)
Theorem save_shows_submitted_value cfg now w c y p sid iid v u section ind :
  find_section cfg sid = Ok section →
  find_indicator section iid = Some ind →
  ∃ html,
    fst (save cfg now w c y p sid iid v u) = Ok html ∧
    label html = ind_name ind ∧
    input_value html = v ∧
    input_locked html = false ∧
    input_disabled html = ind_derived ind ∧
    saved_flash html = true ∧
    saved_badge html = true ∧
    (y ≠ active_year cfg →
     snd (save cfg now w c y p sid iid v u) = w ∧
     get_value_sql (reports (snd (save cfg now w c y p sid iid v u))) c y p iid
       = get_value_sql (reports w) c y p iid).
Proof.
  intros Hs Hi. eexists. split; [by eapply save_known_indicator|].
  split_and!; try done.
  intros Hy. rewrite save_world, upsert_inactive by done. done.
Qed.

Lemma save_shows_submitted_value_witness :
  find_section demo_cfg "population" = Ok population ∧
  find_indicator population "pop_male" = Some pop_male ∧
  ∃ html,
    fst (save demo_cfg "2024-03-02 09:00:00" demo_world
           "Acme" "2023" "Annual Total" "population" "pop_male" "99" "count")
      = Ok html ∧
    label html = "Population (male)" ∧
    input_value html = "99" ∧
    input_locked html = false ∧
    input_disabled html = false ∧
    saved_flash html = true ∧
    saved_badge html = true ∧
    ("2023" ≠ active_year demo_cfg →
     snd (save demo_cfg "2024-03-02 09:00:00" demo_world
            "Acme" "2023" "Annual Total" "population" "pop_male" "99" "count")
       = demo_world ∧
     get_value_sql
       (reports (snd (save demo_cfg "2024-03-02 09:00:00" demo_world
                        "Acme" "2023" "Annual Total" "population" "pop_male"
                        "99" "count")))
       "Acme" "2023" "Annual Total" "pop_male"
       = get_value_sql (reports demo_world)
           "Acme" "2023" "Annual Total" "pop_male").
Proof.
  split_and!; [reflexivity..|].
  apply (save_shows_submitted_value demo_cfg _ demo_world _ _ _ _ _ _ _
           population pop_male); reflexivity.
Defined.

(** The stale-year save of the witness: the fragment shows 99 as saved, the
    store still holds 7. *)
Example save_stale_year :
  let r := save demo_cfg "2024-03-02 09:00:00" demo_world
             "Acme" "2023" "Annual Total" "population" "pop_male" "99" "count" in
  (input_value <$> (match fst r with Ok h => Some h | Raise _ => None end))
    = Some "99" ∧
  get_value_sql (reports (snd r)) "Acme" "2023" "Annual Total" "pop_male" = "7".
Proof. vm_compute. split; reflexivity. Qed.

(** The scenarios of the description: with active year 2024 the write of
    pop_male is stored, pop_total was never written, and the review lists
    pop_male only; with active year 2023 the same write is dropped. *)
Example scenario_active_year :
  let w := upsert_value_sql demo_cfg "2024-03-02 09:00:00" empty_world
             "Acme" "2024" "Annual Total" "pop_male" "10" "count" in
  get_value_sql (reports w) "Acme" "2024" "Annual Total" "pop_male" = "10" ∧
  get_value_sql (reports w) "Acme" "2024" "Annual Total" "pop_total"
    = EmptyString ∧
  review demo_cfg (reports w) "Acme" "2024" "Annual Total" =
    [{| d_name := "Population (male)"; d_value := "10"; d_unit := "count" |}].
Proof. vm_compute. split_and!; reflexivity. Qed.

Example scenario_other_year :
  let cfg := {| app_title := "GOYN"; active_year := "2023";
                sections := demo_sections; google_sheets := None |} in
  let w := upsert_value_sql cfg "2024-03-02 09:00:00" empty_world
             "Acme" "2024" "Annual Total" "pop_male" "10" "count" in
  w = empty_world ∧
  get_value_sql (reports w) "Acme" "2024" "Annual Total" "pop_male"
    = EmptyString.
Proof. vm_compute. split; reflexivity. Qed.

(** ** The order of enumeration *)

(** X22: a [SELECT] without [ORDER BY] may enumerate the rows in any order;
    under the primary key the review is the same for all of them. *)
Lemma review_perm cfg db db' c y p :
  wf_table db → db ≡ₚ db' →
  review cfg db c y p = review cfg db' c y p.
Proof.
  intros Hwf Hp.
  assert (wf_table db') as Hwf' by (unfold wf_table in *; by rewrite <- Hp).
  rewrite !review_refines by done. unfold review_spec.
  rewrite (list_filter_iff (has_value db c y p) (has_value db' c y p)).
  - apply list_fmap_ext. intros _ ind _. f_equal.
    by apply get_value_sql_perm.
  - intros ind. unfold has_value. rewrite !Exists_exists.
    by setoid_rewrite Hp.
Qed.

(** The export has as many data records for every order. *)
Lemma download_report_perm_length cfg db db' c y p :
  db ≡ₚ db' →
  length (download_report cfg db c y p) =
  length (download_report cfg db' c y p).
Proof.
  intros Hp. unfold download_report, rows_of_report. simpl.
  by rewrite !length_fmap, Hp.
Qed.

(** ** Sequences of writes *)

Lemma row_key_of_write r : row_key (row_of_write r) = write_key r.
Proof. done. Qed.

Lemma do_write_active cfg w r :
  to_year r = active_year cfg →
  reports (do_write cfg w r) = insert_or_update (row_of_write r) (reports w).
Proof. intros Hy. unfold do_write. by rewrite upsert_active. Qed.

Lemma do_write_inactive cfg w r :
  to_year r ≠ active_year cfg → do_write cfg w r = w.
Proof. intros Hy. unfold do_write. by rewrite upsert_inactive. Qed.

Lemma do_writes_snoc cfg w l r :
  do_writes cfg w (l ++ [r]) = do_write cfg (do_writes cfg w l) r.
Proof. unfold do_writes. by rewrite foldl_snoc. Qed.

Lemma wf_do_writes cfg w l :
  wf_table (reports w) → wf_table (reports (do_writes cfg w l)).
Proof.
  intros Hwf. induction l as [|r l IH] using rev_ind; [done|].
  rewrite do_writes_snoc. by apply wf_upsert.
Qed.

Lemma get_do_write cfg w r c y p i :
  get_value_sql (reports (do_write cfg w r)) c y p i =
  if decide (write_key r = (c, y, p, i) ∧ to_year r = active_year cfg)
  then new_value r
  else get_value_sql (reports w) c y p i.
Proof.
  destruct (decide (to_year r = active_year cfg)) as [Hy|Hy].
  - rewrite do_write_active by done. rewrite !get_value_sql_head.
    destruct (decide (write_key r = (c, y, p, i))) as [Hk|Hk].
    + rewrite decide_True by done. rewrite <- Hk, <- row_key_of_write.
      by rewrite head_rows_at_insert.
    + rewrite decide_False by tauto.
      by rewrite rows_at_insert_other by (by rewrite row_key_of_write).
  - rewrite do_write_inactive by done. by rewrite decide_False by tauto.
Qed.

Lemma get_do_writes cfg w l c y p i :
  get_value_sql (reports (do_writes cfg w l)) c y p i =
  match last (filter (λ r, write_key r = (c, y, p, i)
                           ∧ to_year r = active_year cfg) l) with
  | Some r => new_value r
  | None => get_value_sql (reports w) c y p i
  end.
Proof.
  induction l as [|r l IH] using rev_ind; [done|].
  rewrite do_writes_snoc, get_do_write, filter_app, filter_cons, filter_nil.
  destruct (decide (write_key r = (c, y, p, i) ∧ to_year r = active_year cfg)).
  - by rewrite last_snoc.
  - by rewrite app_nil_r.
Qed.

Lemma insert_or_update_idem new db :
  insert_or_update new (insert_or_update new db) = insert_or_update new db.
Proof.
  induction db as [|r db IH].
  - simpl. rewrite decide_True by done. by rewrite conflict_row_eq.
  - rewrite insert_or_update_cons.
    destruct (decide (row_key r = row_key new)) as [Hk|Hk].
    + rewrite insert_or_update_cons. by rewrite decide_True.
    + rewrite insert_or_update_cons, decide_False by done. by rewrite IH.
Qed.

Lemma insert_or_update_comm a b db :
  row_key a ≠ row_key b →
  insert_or_update a (insert_or_update b db) ≡ₚ
  insert_or_update b (insert_or_update a db).
Proof.
  intros Hne. induction db as [|r db IH].
  - simpl. rewrite !decide_False by done. apply perm_swap.
  - rewrite !(insert_or_update_cons _ r).
    destruct (decide (row_key r = row_key b)) as [Hb|Hb];
      destruct (decide (row_key r = row_key a)) as [Ha|Ha];
      try congruence.
    + rewrite !insert_or_update_cons.
      repeat case_decide; first [done | congruence].
    + rewrite !insert_or_update_cons.
      repeat case_decide; first [done | congruence].
    + rewrite !insert_or_update_cons.
      rewrite !decide_False by done. by rewrite IH.
Qed.

Lemma length_insert_or_update new db :
  length (insert_or_update new db) =
  length db + (if decide (row_key new ∈ row_key <$> db) then 0 else 1).
Proof.
  rewrite <- (length_fmap row_key), keys_insert.
  destruct (decide _); rewrite ?length_app, length_fmap; simpl; lia.
Qed.

Lemma keys_insert_prefix new db :
  (row_key <$> db) `prefix_of` (row_key <$> insert_or_update new db).
Proof.
  rewrite keys_insert. destruct (decide _); [done|]. by apply prefix_app_r.
Qed.

(** X1: every sequence of writes, with a sync thread running after it,
    leaves a table that respects its primary key, when it started from
    one. *)
Theorem writes_keep_primary_key cfg w l env :
  wf_table (reports w) →
  wf_table (reports (do_writes cfg w l)) ∧
  wf_table (reports (snd (run_thread cfg env (do_writes cfg w l)))).
Proof.
  intros Hwf. rewrite run_thread_reports. split; by apply wf_do_writes.
Qed.

(** X2: after a sequence of writes, a point lookup returns the value of the
    last write of the sequence at that key in the active year, and what it
    returned before the sequence when there is none. *)
Theorem last_write_wins cfg w l c y p i :
  get_value_sql (reports (do_writes cfg w l)) c y p i =
  match last (filter (λ r, write_key r = (c, y, p, i)
                           ∧ to_year r = active_year cfg) l) with
  | Some r => new_value r
  | None => get_value_sql (reports w) c y p i
  end.
Proof. apply get_do_writes. Qed.

(** X3: repeating a write (same arguments, same reading of the clock)
    leaves the table as the first one left it. *)
Theorem upsert_idempotent cfg now w c y p i v u :
  reports (upsert_value_sql cfg now
             (upsert_value_sql cfg now w c y p i v u) c y p i v u) =
  reports (upsert_value_sql cfg now w c y p i v u).
Proof.
  destruct (decide (y = active_year cfg)) as [Hy|Hy].
  - rewrite !upsert_active by done. apply insert_or_update_idem.
  - by rewrite !upsert_inactive.
Qed.

Lemma without_timestamp_key r : row_key (without_timestamp r) = row_key r.
Proof. done. Qed.

Lemma without_timestamp_insert new db :
  without_timestamp <$> insert_or_update new db =
  insert_or_update (without_timestamp new) (without_timestamp <$> db).
Proof.
  induction db as [|r db IH]; [done|].
  rewrite fmap_cons, !insert_or_update_cons, without_timestamp_key.
  rewrite without_timestamp_key.
  destruct (decide (row_key r = row_key new)); [done|].
  by rewrite fmap_cons, IH.
Qed.

Lemma get_upsert cfg now w c y p i v u c' y' p' i' :
  get_value_sql (reports (upsert_value_sql cfg now w c y p i v u))
    c' y' p' i' =
  if decide ((c, y, p, i) = (c', y', p', i') ∧ y = active_year cfg)
  then v else get_value_sql (reports w) c' y' p' i'.
Proof.
  pose (r := {| at_time := now; to_community := c; to_year := y;
                to_period := p; to_indicator_id := i; new_value := v;
                new_unit := u |}).
  change (upsert_value_sql cfg now w c y p i v u) with (do_write cfg w r).
  apply get_do_write.
Qed.

(** X4: two writes at different keys can be made in either order, the
    clock being read at each call: the tables hold the same keys, values
    and units (the rows differ at most in their timestamps, and in their
    order), every point lookup returns the same value, and as many sync
    threads are started. *)
Theorem upserts_commute cfg w t1 t2 c1 y1 p1 i1 v1 u1 c2 y2 p2 i2 v2 u2 :
  (c1, y1, p1, i1) ≠ (c2, y2, p2, i2) →
  let wa := upsert_value_sql cfg t2
              (upsert_value_sql cfg t1 w c1 y1 p1 i1 v1 u1)
              c2 y2 p2 i2 v2 u2 in
  let wb := upsert_value_sql cfg t2
              (upsert_value_sql cfg t1 w c2 y2 p2 i2 v2 u2)
              c1 y1 p1 i1 v1 u1 in
  without_timestamp <$> reports wa ≡ₚ without_timestamp <$> reports wb ∧
  threads wa = threads wb ∧
  ∀ c y p i,
    get_value_sql (reports wa) c y p i = get_value_sql (reports wb) c y p i.
Proof.
  intros Hne wa wb. subst wa wb. split_and!.
  - destruct (decide (y1 = active_year cfg)) as [H1|H1];
      destruct (decide (y2 = active_year cfg)) as [H2|H2].
    + rewrite !upsert_active by done. rewrite !without_timestamp_insert.
      apply insert_or_update_comm. unfold row_key. simpl. congruence.
    + rewrite !(upsert_inactive cfg _ _ c2 y2) by done.
      rewrite !upsert_active by done. by rewrite !without_timestamp_insert.
    + rewrite !(upsert_inactive cfg _ _ c1 y1) by done.
      rewrite !upsert_active by done. by rewrite !without_timestamp_insert.
    + by rewrite !upsert_inactive by done.
  - rewrite !threads_upsert.
    repeat destruct (decide _); by destruct (sync_enabled cfg).
  - intros c y p i. rewrite !get_upsert.
    repeat destruct (decide _); try done.
    destruct Hne. intuition congruence.
Qed.

Lemma keys_insert_perm new db :
  row_key <$> insert_or_update new db ≡ₚ
  (row_key <$> db) ++
  (if decide (row_key new ∈ row_key <$> db) then [] else [row_key new]).
Proof.
  rewrite keys_insert. destruct (decide _); by rewrite ?app_nil_r.
Qed.

Lemma insert_keeps_others new db r :
  r ∈ db → row_key r ≠ row_key new → r ∈ insert_or_update new db.
Proof.
  intros Hr Hk.
  assert (r ∈ filter (λ r, row_key r ≠ row_key new) (insert_or_update new db))
    as Hin by (rewrite others_insert; by apply list_elem_of_filter).
  by apply list_elem_of_filter in Hin as [_ ?].
Qed.

(** X5: a write deletes no row: every row at another key is still in the
    table, the keys of the table are those it had, with the written key
    added exactly when the year is the active one and the key was absent,
    and the table has one row more in that case and as many otherwise. *)
Theorem upsert_never_deletes cfg now w c y p i v u :
  (∀ r, r ∈ reports w → row_key r ≠ (c, y, p, i) →
        r ∈ reports (upsert_value_sql cfg now w c y p i v u)) ∧
  row_key <$> reports (upsert_value_sql cfg now w c y p i v u) ≡ₚ
    (row_key <$> reports w) ++
    (if decide (y = active_year cfg ∧ (c, y, p, i) ∉ row_key <$> reports w)
     then [(c, y, p, i)] else []) ∧
  length (reports (upsert_value_sql cfg now w c y p i v u)) =
    length (reports w) +
    (if decide (y = active_year cfg ∧ (c, y, p, i) ∉ row_key <$> reports w)
     then 1 else 0).
Proof.
  destruct (decide (y = active_year cfg)) as [Hy|Hy].
  - rewrite upsert_active by done. split_and!.
    + intros r Hr Hk. by apply insert_keeps_others.
    + rewrite keys_insert_perm. unfold row_key at 2.
      cbn [community year period indicator_id].
      repeat case_decide; first [done | tauto].
    + rewrite length_insert_or_update. unfold row_key at 1.
      cbn [community year period indicator_id].
      repeat case_decide; first [lia | tauto].
  - rewrite upsert_inactive by done. split_and!; [done| |].
    + case_decide; [tauto | by rewrite app_nil_r].
    + case_decide; [tauto | lia].
Qed.

Lemma writes_keep_primary_key_witness :
  wf_table (reports demo_world) ∧
  wf_table (reports (do_writes demo_cfg demo_world
                       [write_male; write_stale; write_notes])) ∧
  wf_table (reports (snd (run_thread demo_cfg (λ _, None)
                            (do_writes demo_cfg demo_world
                               [write_male; write_stale; write_notes])))).
Proof.
  split; [exact demo_world_wf|].
  apply writes_keep_primary_key. exact demo_world_wf.
Defined.

Lemma upserts_commute_witness :
  ("Acme", "2024", "Annual Total", "pop_male") ≠
    ("Acme", "2024", "Annual Total", "notes") ∧
  let wa := upsert_value_sql demo_cfg "2024-03-02 09:01:00"
              (upsert_value_sql demo_cfg "2024-03-02 09:00:00" demo_world
                 "Acme" "2024" "Annual Total" "pop_male" "10" "count")
              "Acme" "2024" "Annual Total" "notes" "census" "Text" in
  let wb := upsert_value_sql demo_cfg "2024-03-02 09:01:00"
              (upsert_value_sql demo_cfg "2024-03-02 09:00:00" demo_world
                 "Acme" "2024" "Annual Total" "notes" "census" "Text")
              "Acme" "2024" "Annual Total" "pop_male" "10" "count" in
  without_timestamp <$> reports wa ≡ₚ without_timestamp <$> reports wb ∧
  threads wa = threads wb ∧
  ∀ c y p i,
    get_value_sql (reports wa) c y p i = get_value_sql (reports wb) c y p i.
Proof. split; [discriminate | apply upserts_commute; discriminate]. Defined.

(** ** Counting the rows of a report *)

Lemma length_report_insert c y p new db :
  length (rows_of_report c y p (insert_or_update new db)) =
  length (rows_of_report c y p db) +
  (if decide ((row_key new ∉ (row_key <$> db))
              ∧ (community new = c ∧ year new = y ∧ period new = p))
   then 1 else 0).
Proof.
  unfold rows_of_report. induction db as [|r db IH].
  - simpl insert_or_update. rewrite filter_cons, filter_nil, fmap_nil.
    pose proof (not_elem_of_nil (row_key new)).
    repeat case_decide; simpl; first [lia | tauto].
  - rewrite insert_or_update_cons, fmap_cons.
    destruct (decide (row_key r = row_key new)) as [Hk|Hk].
    + rewrite !filter_cons.
      assert (row_key new ∈ row_key r :: (row_key <$> db)) as Hin
        by (rewrite Hk; left).
      unfold row_key in Hk. injection Hk as Hc Hy Hp Hi.
      clear IH. rewrite Hc, Hy, Hp.
      repeat case_decide; simpl; first [lia | tauto].
    + rewrite !(filter_cons _ r).
      assert (row_key new ∉ row_key r :: (row_key <$> db)
              ↔ row_key new ∉ (row_key <$> db)) as Hiff
        by (rewrite not_elem_of_cons; intuition congruence).
      destruct (decide (community r = c ∧ year r = y ∧ period r = p));
        simpl; rewrite IH; repeat case_decide; first [lia | tauto].
Qed.

Lemma keys_do_writes cfg w l k :
  k ∈ row_key <$> reports (do_writes cfg w l) →
  k ∈ row_key <$> reports w ∨ k ∈ write_key <$> l.
Proof.
  induction l as [|r l IH] using rev_ind; [by left|].
  rewrite do_writes_snoc, fmap_app, elem_of_app.
  destruct (decide (to_year r = active_year cfg)) as [Hy|Hy].
  - rewrite do_write_active, keys_insert by done.
    destruct (decide _) as [Hin|Hin].
    + intros Hk. destruct (IH Hk); auto.
    + rewrite elem_of_app, list_elem_of_singleton, row_key_of_write.
      intros [Hk | ->].
      * destruct (IH Hk); auto.
      * right. right. simpl. left.
  - rewrite do_write_inactive by done. intros Hk. destruct (IH Hk); auto.
Qed.

Lemma get_fresh_writes cfg w l r :
  NoDup (write_key <$> l) →
  Forall (λ r, to_year r = active_year cfg) l →
  r ∈ l →
  get_value_sql (reports (do_writes cfg w l))
    (to_community r) (to_year r) (to_period r) (to_indicator_id r) =
  new_value r.
Proof.
  induction l as [|x l IH] using rev_ind; [by intros _ _ ?%elem_of_nil|].
  rewrite fmap_app, NoDup_app, Forall_app, elem_of_app.
  intros (Hnd & Hdisj & _) [Hall Hx] Hr.
  rewrite Forall_singleton in Hx.
  rewrite do_writes_snoc, get_do_write. destruct Hr as [Hr|Hr].
  - rewrite decide_False; [by apply IH|].
    intros [Hk _]. apply (Hdisj (write_key r)).
    + by apply list_elem_of_fmap_2.
    + apply list_elem_of_fmap. exists x. split; [symmetry; exact Hk | left].
  - apply list_elem_of_singleton in Hr as ->.
    by rewrite decide_True by (by split).
Qed.

Lemma length_report_writes cfg w c y p l :
  y = active_year cfg →
  Forall (λ r, to_community r = c ∧ to_year r = y ∧ to_period r = p) l →
  NoDup (write_key <$> l) →
  (∀ r, r ∈ l → write_key r ∉ row_key <$> reports w) →
  length (rows_of_report c y p (reports (do_writes cfg w l))) =
  length (rows_of_report c y p (reports w)) + length l.
Proof.
  intros Hy. induction l as [|x l IH] using rev_ind; [simpl; lia|].
  rewrite fmap_app, NoDup_app, Forall_app.
  intros [Hall Hx] (Hnd & Hdisj & _) Hfresh.
  rewrite Forall_singleton in Hx. destruct Hx as (Hc & Hxy & Hp).
  rewrite do_writes_snoc, do_write_active by congruence.
  rewrite length_report_insert, IH, length_app; try done.
  - rewrite decide_True; [simpl; lia|]. split; [|done].
    rewrite row_key_of_write. intros Hin.
    apply keys_do_writes in Hin as [Hin|Hin].
    + by apply (Hfresh x); [apply elem_of_app; right; left|].
    + apply (Hdisj _ Hin). simpl. left.
  - intros r Hr. apply Hfresh, elem_of_app. by left.
Qed.

(** X6: writes in the active year at distinct keys of one report, none of
    them in the table before, add as many rows to the scan of the report as
    there are writes, and a point lookup at each of them returns its
    value. *)
Theorem scan_counts_fresh_writes cfg w c y p l :
  y = active_year cfg →
  Forall (λ r, to_community r = c ∧ to_year r = y ∧ to_period r = p) l →
  NoDup (write_key <$> l) →
  (∀ r, r ∈ l → write_key r ∉ row_key <$> reports w) →
  length (rows_of_report c y p (reports (do_writes cfg w l))) =
    length (rows_of_report c y p (reports w)) + length l ∧
  Forall (λ r, get_value_sql (reports (do_writes cfg w l)) c y p
                 (to_indicator_id r) = new_value r) l.
Proof.
  intros Hy Hall Hnd Hfresh. split; [by apply length_report_writes|].
  apply Forall_forall. intros r Hr.
  pose proof (proj1 (Forall_forall _ _) Hall r Hr) as (Hc & Hry & Hp).
  rewrite <- Hc, <- Hp, <- Hry at 1. apply get_fresh_writes; [done | | done].
  eapply Forall_impl; [exact Hall|]. simpl. intros ? (_ & ? & _). congruence.
Qed.

Lemma scan_counts_fresh_writes_witness :
  "2024" = active_year demo_cfg ∧
  Forall (λ r, to_community r = "Acme" ∧ to_year r = "2024"
               ∧ to_period r = "Annual Total") [write_male; write_notes] ∧
  NoDup (write_key <$> [write_male; write_notes]) ∧
  (∀ r, r ∈ [write_male; write_notes] →
        write_key r ∉ row_key <$> reports demo_world) ∧
  length (rows_of_report "Acme" "2024" "Annual Total"
            (reports (do_writes demo_cfg demo_world
                        [write_male; write_notes]))) =
    length (rows_of_report "Acme" "2024" "Annual Total"
              (reports demo_world)) + length [write_male; write_notes] ∧
  Forall (λ r, get_value_sql
                 (reports (do_writes demo_cfg demo_world
                             [write_male; write_notes]))
                 "Acme" "2024" "Annual Total" (to_indicator_id r)
               = new_value r) [write_male; write_notes].
Proof.
  assert ("2024" = active_year demo_cfg) as H1 by reflexivity.
  assert (Forall (λ r, to_community r = "Acme" ∧ to_year r = "2024"
                       ∧ to_period r = "Annual Total")
            [write_male; write_notes]) as H2
    by (repeat constructor).
  assert (NoDup (write_key <$> [write_male; write_notes])) as H3
    by (by apply (bool_decide_unpack _)).
  assert (∀ r, r ∈ [write_male; write_notes] →
               write_key r ∉ row_key <$> reports demo_world) as H4.
  { apply Forall_forall. by apply (bool_decide_unpack _). }
  split_and!; [done..| |];
    by apply (scan_counts_fresh_writes demo_cfg demo_world _ _ _ _ H1 H2 H3 H4).
Defined.

(** ** What the review and the export take from the store and the catalog *)

Lemma data_map_lookup_Some db c y p i row :
  data_map (select_review db c y p) !! i = Some row →
  ∃ r, r ∈ db ∧ row_key r = (c, y, p, i) ∧
       sel_value row = value r ∧ sel_unit row = unit_ r.
Proof.
  unfold data_map.
  rewrite (foldl_insert_lookup sel_indicator_id id), select_review_filter.
  destruct (last _) as [row'|] eqn:Hlast; [|done].
  intros [= <-]. apply last_Some_elem_of in Hlast.
  apply list_elem_of_fmap in Hlast as (r & -> & Hr).
  apply rows_at_elem in Hr as [Hr Hk]. by exists r.
Qed.


Lemma length_review cfg db c y p :
  (length (review cfg db c y p) ≤ length (all_indicators cfg))%nat.
Proof.
  rewrite review_bind. induction (all_indicators cfg) as [|ind l IH]; [done|].
  rewrite bind_cons, length_app. simpl.
  destruct (data_map _ !! ind_id ind) as [row|]; simpl; [|lia].
  destruct (truthy _); simpl; lia.
Qed.

Lemma id_to_name_None cfg i :
  id_to_name cfg !! i = None ↔ i ∉ ind_id <$> all_indicators cfg.
Proof.
  rewrite id_to_name_lookup. unfold config_name.
  rewrite fmap_None, last_None. split.
  - intros Hnil (ind & -> & Hind)%list_elem_of_fmap.
    by apply (filter_nil_not_elem_of _ _ ind Hnil).
  - intros Hnot. apply elem_of_nil_inv. intros ind.
    rewrite list_elem_of_filter. intros [<- Hind].
    apply Hnot. by apply list_elem_of_fmap_2.
Qed.

Lemma id_to_name_unique cfg ind :
  NoDup (ind_id <$> all_indicators cfg) →
  ind ∈ all_indicators cfg →
  id_to_name cfg !! ind_id ind = Some (ind_name ind).
Proof.
  intros Hnd Hind. rewrite id_to_name_lookup. unfold config_name.
  destruct (last _) as [ind'|] eqn:Hlast; simpl.
  - apply last_Some_elem_of, list_elem_of_filter in Hlast as [Hid Hind'].
    f_equal. f_equal.
    apply (NoDup_fmap_1 ind_id) in Hnd as Hnd'.
    destruct (list_elem_of_lookup_1 _ _ Hind) as [n Hn].
    destruct (list_elem_of_lookup_1 _ _ Hind') as [n' Hn'].
    assert (n' = n) as ->.
    { eapply NoDup_lookup; [exact Hnd | |];
        rewrite list_lookup_fmap; [rewrite Hn' | rewrite Hn]; simpl;
        by rewrite ?Hid. }
    congruence.
  - apply last_None in Hlast.
    by destruct (filter_nil_not_elem_of _ _ ind Hlast).
Qed.

Lemma review_contribution db c y p ind :
  let rows_of ind :=
    match data_map (select_review db c y p) !! ind_id ind with
    | Some row =>
        if truthy (sel_value row)
        then [{| d_name := ind_name ind; d_value := sel_value row;
                 d_unit := ind_unit ind |}]
        else []
    | None => []
    end in
  rows_of ind = [] ∨
  ∃ r, r ∈ db ∧ row_key r = (c, y, p, ind_id ind) ∧ value r ≠ EmptyString ∧
       rows_of ind = [{| d_name := ind_name ind; d_value := value r;
                         d_unit := ind_unit ind |}].
Proof.
  simpl. destruct (data_map _ !! ind_id ind) as [row|] eqn:Hrow; [|by left].
  destruct (truthy (sel_value row)) eqn:Ht; [|by left].
  apply data_map_lookup_Some in Hrow as (r & Hr & Hk & Hv & _).
  right. exists r. split_and!; try done.
  - apply truthy_nonempty. by rewrite <- Hv.
  - by rewrite Hv.
Qed.

(** X7: the rows of the review are those of a subsequence of the declared
    indicators, one row for each indicator of the subsequence and in the
    same order: the row of an indicator comes from a stored entry of that
    report for that indicator, with a non-empty value, and carries that
    value and the name and unit of the declaration. No assumption on the
    table. *)
Theorem review_sound cfg db c y p :
  ∃ shown,
    shown `sublist_of` all_indicators cfg ∧
    Forall2 (λ ind d,
               ∃ r, r ∈ db ∧ row_key r = (c, y, p, ind_id ind) ∧
                    value r ≠ EmptyString ∧
                    d = {| d_name := ind_name ind; d_value := value r;
                           d_unit := ind_unit ind |})
            shown (review cfg db c y p).
Proof.
  rewrite review_bind.
  induction (all_indicators cfg) as [|ind l (shown & Hsub & Hall)].
  - exists []. split; [done | constructor].
  - rewrite bind_cons.
    destruct (review_contribution db c y p ind)
      as [E|(r & Hr & Hk & Hv & E)]; simpl in E; rewrite E.
    + exists shown. split; [by apply sublist_cons | done].
    + exists (ind :: shown). split; [by apply sublist_skip|].
      constructor; [by exists r | done].
Qed.

(** X8: the export names an entry exactly when the catalog declares its
    indicator id, and when the ids of the catalog are distinct the name is
    that of the declaration. *)
Theorem export_names cfg :
  (∀ i, id_to_name cfg !! i = None ↔ i ∉ ind_id <$> all_indicators cfg) ∧
  (NoDup (ind_id <$> all_indicators cfg) →
   ∀ ind, ind ∈ all_indicators cfg →
     id_to_name cfg !! ind_id ind = Some (ind_name ind)).
Proof.
  split; [apply id_to_name_None|]. intros Hnd ind. by apply id_to_name_unique.
Qed.






(** ** When the sync completes *)

Lemma sync_body_Ok cfg env :
  sync_body cfg env = Ok tt ↔
  env ImportGspread = None ∧ env ImportOauth2client = None ∧
  env ReadReports = None ∧
  (∃ g, google_sheets cfg = Some g ∧ is_Some (credentials_file g)
        ∧ is_Some (sheet_name g)) ∧
  env LoadCredentials = None ∧ env Authorize = None ∧
  (env OpenSheet = None ∨ env CreateSheet = None) ∧
  env ClearSheet = None ∧ env UpdateSheet = None.
Proof.
  unfold sync_body, call, config_sheets_field, try_except, is_Some.
  assert (∀ P : Prop, (P → False) → (∀ e : exn, @Raise unit e = Ok tt ↔ P))
    as Hraise by (intros P HP e; split; [done | by intros ?%HP]).
  destruct (env ImportGspread) eqn:?; simpl;
    [apply Hraise; by intros (? & _)|].
  destruct (env ImportOauth2client) eqn:?; simpl;
    [apply Hraise; by intros (_ & ? & _)|].
  destruct (env ReadReports) eqn:?; simpl;
    [apply Hraise; by intros (_ & _ & ? & _)|].
  destruct (google_sheets cfg) as [g|] eqn:?; simpl;
    [|apply Hraise; by intros (_ & _ & _ & (? & ? & _) & _)].
  destruct (credentials_file g) as [cf|] eqn:?; simpl;
    [|apply Hraise; intros (_ & _ & _ & (? & ? & [? ?] & _) & _);
      simplify_eq].
  destruct (sheet_name g) as [sn|] eqn:?; simpl;
    [|apply Hraise; intros (_ & _ & _ & (? & ? & _ & [? ?]) & _);
      simplify_eq].
  destruct (env LoadCredentials) eqn:?; simpl;
    [apply Hraise; by intros (_ & _ & _ & _ & ? & _)|].
  destruct (env Authorize) eqn:?; simpl;
    [apply Hraise; by intros (_ & _ & _ & _ & _ & ? & _)|].
  destruct (env OpenSheet) eqn:?, (env CreateSheet) eqn:?; simpl;
    try (apply Hraise; by intros (_ & _ & _ & _ & _ & _ & [?|?] & _)).
  all: destruct (env ClearSheet) eqn:?; simpl;
    [apply Hraise; by intros (_ & _ & _ & _ & _ & _ & _ & ? & _)|].
  all: destruct (env UpdateSheet) eqn:?; simpl;
    [apply Hraise; by intros (_ & _ & _ & _ & _ & _ & _ & _ & ?)|].
  all: split; [intros _ | done].
  all: split_and!; try done; eauto 10.
Qed.

Lemma sync_body_first_failure cfg env :
  sync_body cfg env =
  match first_failure cfg env with
  | Some e => Raise e
  | None => Ok tt
  end.
Proof.
  unfold sync_body, first_failure, sync_outcomes, call, config_sheets_field,
    try_except.
  destruct (env ImportGspread); [done|].
  destruct (env ImportOauth2client); [done|].
  destruct (env ReadReports); [done|].
  destruct (google_sheets cfg) as [g|]; [|done].
  destruct (credentials_file g); [|done].
  destruct (sheet_name g); [|done].
  destruct (env LoadCredentials); [done|].
  destruct (env Authorize); [done|].
  destruct (env OpenSheet), (env CreateSheet); try done;
    destruct (env ClearSheet); try done; by destruct (env UpdateSheet).
Qed.

(** X11: a sync run prints one line. It is the completion message exactly
    when its imports, the read of the table, the loading of the
    credentials, the authorization, the clearing and the update succeed,
    the configuration names a credentials file and a sheet, and the sheet
    can be opened or, failing that, created; in every other case it is the
    exception of the first step that raised. *)
Theorem sync_completes_iff cfg env w :
  ∃ line,
    stdout (snd (_run_sync cfg env w)) = (stdout w ++ [line])%list ∧
    (line = SyncComplete ↔
     env ImportGspread = None ∧ env ImportOauth2client = None ∧
     env ReadReports = None ∧
     (∃ g, google_sheets cfg = Some g ∧ is_Some (credentials_file g)
           ∧ is_Some (sheet_name g)) ∧
     env LoadCredentials = None ∧ env Authorize = None ∧
     (env OpenSheet = None ∨ env CreateSheet = None) ∧
     env ClearSheet = None ∧ env UpdateSheet = None) ∧
    (∀ e, line = SyncError e ↔ first_failure cfg env = Some e) ∧
    (line = SyncComplete ∨ ∃ e, line = SyncError e).
Proof.
  eexists. split; [apply run_sync_logs|].
  rewrite <- sync_body_Ok.
  pose proof (sync_body_first_failure cfg env) as Hff.
  destruct (sync_body cfg env) as [[]|e] eqn:Hb;
    destruct (first_failure cfg env) as [e'|]; try done.
  - split_and!; [done | | by left]. intros e. split; done.
  - injection Hff as ->. split_and!; [done | | right; by exists e'].
    intros e. split; by intros [= ->].
Qed.

Lemma threads_do_writes cfg w l :
  threads (do_writes cfg w l) =
  threads w +
  (if sync_enabled cfg
   then length (filter (λ r, to_year r = active_year cfg) l) else 0).
Proof.
  induction l as [|r l IH] using rev_ind.
  - simpl. destruct (sync_enabled cfg); simpl; lia.
  - rewrite do_writes_snoc. unfold do_write at 1. rewrite threads_upsert, IH.
    rewrite filter_app, length_app, filter_cons, filter_nil.
    destruct (decide (to_year r = active_year cfg));
      destruct (sync_enabled cfg); simpl; lia.
Qed.

Lemma stdout_do_writes cfg w l : stdout (do_writes cfg w l) = stdout w.
Proof.
  induction l as [|r l IH] using rev_ind; [done|].
  rewrite do_writes_snoc. unfold do_write at 1. by rewrite stdout_upsert.
Qed.

(** X12: a sequence of writes starts one sync thread for each of its writes
    in the active year when the sync is enabled (the syncs are not merged),
    none otherwise, and prints nothing itself. *)
Theorem one_sync_per_write cfg w l :
  threads (do_writes cfg w l) =
    threads w +
    (if sync_enabled cfg
     then length (filter (λ r, to_year r = active_year cfg) l) else 0) ∧
  stdout (do_writes cfg w l) = stdout w.
Proof. split; [apply threads_do_writes | apply stdout_do_writes]. Qed.

(** ** Reports of other years *)

Lemma rows_of_report_insert c y p new db :
  year new ≠ y →
  rows_of_report c y p (insert_or_update new db) = rows_of_report c y p db.
Proof.
  intros Hy. unfold rows_of_report. induction db as [|r db IH].
  - simpl insert_or_update. rewrite filter_cons.
    case_decide as H; [by destruct H as (_ & ? & _) | done].
  - rewrite insert_or_update_cons.
    destruct (decide (row_key r = row_key new)) as [Hk|Hk].
    + unfold row_key in Hk. injection Hk as Hc Hry Hp Hi.
      rewrite !filter_cons.
      repeat case_decide; first [done | exfalso; intuition congruence].
    + by rewrite !(filter_cons _ r), IH.
Qed.

Lemma rows_of_report_do_writes cfg w l c y p :
  y ≠ active_year cfg →
  rows_of_report c y p (reports (do_writes cfg w l)) =
  rows_of_report c y p (reports w).
Proof.
  intros Hy. induction l as [|r l IH] using rev_ind; [done|].
  rewrite do_writes_snoc.
  destruct (decide (to_year r = active_year cfg)) as [Hr|Hr].
  - rewrite do_write_active by done.
    rewrite rows_of_report_insert; [done | simpl; congruence].
  - by rewrite do_write_inactive.
Qed.

Lemma get_do_writes_other_year cfg w l c y p i :
  y ≠ active_year cfg →
  get_value_sql (reports (do_writes cfg w l)) c y p i =
  get_value_sql (reports w) c y p i.
Proof.
  intros Hy. rewrite get_do_writes.
  destruct (last _) as [r|] eqn:Hlast; [|done].
  apply last_Some_elem_of, list_elem_of_filter in Hlast as [[Hk Hr] _].
  unfold write_key in Hk. injection Hk as _ Hry _ _. congruence.
Qed.

(** X13: the report of a year other than the active one is out of reach of
    every sequence of writes: the section fragment, the review and the
    export of that report are the same after it as before. *)
Theorem other_years_unchanged cfg w l c y p section_id :
  y ≠ active_year cfg →
  switch cfg (reports (do_writes cfg w l)) c y p section_id =
    switch cfg (reports w) c y p section_id ∧
  review cfg (reports (do_writes cfg w l)) c y p =
    review cfg (reports w) c y p ∧
  download_report cfg (reports (do_writes cfg w l)) c y p =
    download_report cfg (reports w) c y p.
Proof.
  intros Hy. split_and!.
  - unfold switch. destruct (find_section cfg section_id) as [s|e]; [|done].
    simpl. do 2 f_equal. unfold rendered. apply list_fmap_ext.
    intros _ ind _. by rewrite get_do_writes_other_year.
  - unfold review, select_review. by rewrite rows_of_report_do_writes.
  - unfold download_report. by rewrite rows_of_report_do_writes.
Qed.

Lemma other_years_unchanged_witness :
  "2023" ≠ active_year demo_cfg ∧
  switch demo_cfg
    (reports (do_writes demo_cfg demo_world
                [write_male; write_stale; write_notes]))
    "Acme" "2023" "Annual Total" "population" =
    switch demo_cfg (reports demo_world)
      "Acme" "2023" "Annual Total" "population" ∧
  review demo_cfg
    (reports (do_writes demo_cfg demo_world
                [write_male; write_stale; write_notes]))
    "Acme" "2023" "Annual Total" =
    review demo_cfg (reports demo_world) "Acme" "2023" "Annual Total" ∧
  download_report demo_cfg
    (reports (do_writes demo_cfg demo_world
                [write_male; write_stale; write_notes]))
    "Acme" "2023" "Annual Total" =
    download_report demo_cfg (reports demo_world)
      "Acme" "2023" "Annual Total".
Proof.
  split; [simpl; discriminate|].
  apply other_years_unchanged. simpl. discriminate.
Defined.

(** ** The section fragment *)

Lemma find_section_Ok cfg section_id :
  sections cfg ≠ [] → ∃ section, find_section cfg section_id = Ok section.
Proof.
  unfold find_section. destruct (sections cfg) as [|s0 ss]; [done|].
  intros _. by eexists.
Qed.

Lemma find_section_unknown cfg section_id s0 ss :
  sections cfg = s0 :: ss →
  section_id ∉ sec_id <$> sections cfg →
  find_section cfg section_id = Ok s0.
Proof.
  intros Hs Hnot. unfold find_section. rewrite Hs.
  assert (filter (λ s, sec_id s = section_id) (s0 :: ss) = []) as ->; [|done].
  apply elem_of_nil_inv. intros s [Hid Hin]%list_elem_of_filter.
  apply Hnot. rewrite Hs, <- Hid. by apply list_elem_of_fmap_2.
Qed.

Lemma switch_Ok cfg db c y p section_id section :
  find_section cfg section_id = Ok section →
  switch cfg db c y p section_id =
  Ok (render_interface cfg section (rendered section db c y p) c y p
        (bool_decide (y = active_year cfg)) section_id).
Proof. intros Hs. unfold switch. by rewrite Hs. Qed.

(** X14: the section fragment has one row per indicator of the section, in
    declaration order, with the stored value of the indicator; the input is
    locked when the year is not the active one, disabled when it is locked
    or the indicator is derived, and no row is marked as saved. *)
Theorem switch_rows cfg db c y p section_id section :
  find_section cfg section_id = Ok section →
  ∃ ifc,
    switch cfg db c y p section_id = Ok ifc ∧
    Forall2 (λ ind h,
               label h = ind_name ind ∧
               hidden_indicator_id h = ind_id ind ∧
               input_value h = get_value_sql db c y p (ind_id ind) ∧
               input_locked h = negb (bool_decide (y = active_year cfg)) ∧
               input_disabled h =
                 negb (bool_decide (y = active_year cfg)) || ind_derived ind ∧
               saved_flash h = false ∧ saved_badge h = false)
            (indicators section) (rows ifc).
Proof.
  intros Hs. eexists. split; [by apply switch_Ok|]. simpl.
  unfold rendered. rewrite <- list_fmap_compose.
  apply Forall2_fmap_r, Forall_Forall2_diag, Forall_forall.
  intros ind _. done.
Qed.

Lemma switch_rows_witness :
  find_section demo_cfg "remarks" = Ok remarks ∧
  ∃ ifc,
    switch demo_cfg (reports demo_world) "Acme" "2023" "Annual Total"
      "remarks" = Ok ifc ∧
    Forall2 (λ ind h,
               label h = ind_name ind ∧
               hidden_indicator_id h = ind_id ind ∧
               input_value h =
                 get_value_sql (reports demo_world)
                   "Acme" "2023" "Annual Total" (ind_id ind) ∧
               input_locked h =
                 negb (bool_decide ("2023" = active_year demo_cfg)) ∧
               input_disabled h =
                 negb (bool_decide ("2023" = active_year demo_cfg))
                 || ind_derived ind ∧
               saved_flash h = false ∧ saved_badge h = false)
            (indicators remarks) (rows ifc).
Proof. split; [reflexivity | apply switch_rows; reflexivity]. Defined.

(** X15: with at least one section configured the section fragment is
    rendered for every section id; some button is highlighted exactly
    when a section has the id, and an id that no section has shows the
    first section: its name and description, one row per indicator of it,
    in declaration order, with the stored value, each row posting the
    requested section id back. *)
Theorem switch_unknown_section cfg db c y p section_id s0 ss :
  sections cfg = s0 :: ss →
  ∃ ifc,
    switch cfg db c y p section_id = Ok ifc ∧
    (Exists (λ b, btn_active b = true) (buttons ifc) ↔
     section_id ∈ sec_id <$> sections cfg) ∧
    (section_id ∉ sec_id <$> sections cfg →
     heading ifc = sec_name s0 ∧
     subheading ifc = sec_description s0 ∧
     Forall (λ b, btn_active b = false) (buttons ifc) ∧
     Forall2 (λ ind h,
                label h = ind_name ind ∧
                hidden_indicator_id h = ind_id ind ∧
                hidden_unit h = ind_unit ind ∧
                hidden_section_id h = section_id ∧
                input_value h = get_value_sql db c y p (ind_id ind) ∧
                input_locked h = negb (bool_decide (y = active_year cfg)) ∧
                input_disabled h =
                  negb (bool_decide (y = active_year cfg)) || ind_derived ind ∧
                saved_flash h = false ∧ saved_badge h = false)
             (indicators s0) (rows ifc)).
Proof.
  intros Hs.
  destruct (find_section_Ok cfg section_id) as [section Hsec];
    [by rewrite Hs|].
  eexists. split; [by apply switch_Ok|]. simpl. split.
  - rewrite Exists_fmap, Exists_exists, list_elem_of_fmap. simpl. split.
    + intros (s & Hin & Hact). apply bool_decide_eq_true in Hact.
      by exists s.
    + intros (s & -> & Hin). exists s. split; [done|].
      by apply bool_decide_eq_true.
  - intros Hnot.
    rewrite (find_section_unknown cfg section_id s0 ss Hs Hnot) in Hsec.
    injection Hsec as <-. split_and!; [done | done | |].
    + apply Forall_fmap, Forall_forall. intros s Hin. simpl.
      apply bool_decide_eq_false. intros Hid. apply Hnot.
      rewrite <- Hid. by apply list_elem_of_fmap_2.
    + unfold rendered. rewrite <- list_fmap_compose.
      apply Forall2_fmap_r, Forall_Forall2_diag, Forall_forall.
      by intros ind _.
Qed.

Lemma switch_unknown_section_witness :
  sections demo_cfg = population :: [remarks] ∧
  ∃ ifc,
    switch demo_cfg (reports demo_world) "Acme" "2024" "Annual Total"
      "no such section" = Ok ifc ∧
    (Exists (λ b, btn_active b = true) (buttons ifc) ↔
     "no such section" ∈ sec_id <$> sections demo_cfg) ∧
    ("no such section" ∉ sec_id <$> sections demo_cfg →
     heading ifc = sec_name population ∧
     subheading ifc = sec_description population ∧
     Forall (λ b, btn_active b = false) (buttons ifc) ∧
     Forall2 (λ ind h,
                label h = ind_name ind ∧
                hidden_indicator_id h = ind_id ind ∧
                hidden_unit h = ind_unit ind ∧
                hidden_section_id h = "no such section" ∧
                input_value h =
                  get_value_sql (reports demo_world)
                    "Acme" "2024" "Annual Total" (ind_id ind) ∧
                input_locked h =
                  negb (bool_decide ("2024" = active_year demo_cfg)) ∧
                input_disabled h =
                  negb (bool_decide ("2024" = active_year demo_cfg))
                  || ind_derived ind ∧
                saved_flash h = false ∧ saved_badge h = false)
             (indicators population) (rows ifc)).
Proof.
  split; [reflexivity|].
  apply (switch_unknown_section demo_cfg _ _ _ _ _ population [remarks]).
  reflexivity.
Defined.

Lemma find_indicator_Some section iid ind :
  find_indicator section iid = Some ind →
  ind ∈ indicators section ∧ ind_id ind = iid.
Proof.
  unfold find_indicator. intros Hh.
  apply head_Some_elem_of, list_elem_of_filter in Hh. tauto.
Qed.

Lemma get_after_upsert cfg now w c y p i v u :
  y = active_year cfg →
  get_value_sql (reports (upsert_value_sql cfg now w c y p i v u)) c y p i = v.
Proof.
  intros Hy.
  pose (r := {| at_time := now; to_community := c; to_year := y;
                to_period := p; to_indicator_id := i; new_value := v;
                new_unit := u |}).
  change (upsert_value_sql cfg now w c y p i v u) with (do_write cfg w r).
  rewrite get_do_write. by rewrite decide_True.
Qed.

(** X16: after a save in the active year for an indicator that the section
    declares, the section fragment loaded next has the row that the save
    returned, without the saved mark. *)
Theorem save_then_switch cfg now w c y p section_id iid v u section ind :
  y = active_year cfg →
  find_section cfg section_id = Ok section →
  find_indicator section iid = Some ind →
  let r := save cfg now w c y p section_id iid v u in
  fst r = Ok (render_row (with_value ind v) c y p section_id true true) ∧
  ∃ ifc,
    switch cfg (reports (snd r)) c y p section_id = Ok ifc ∧
    render_row (with_value ind v) c y p section_id true false ∈ rows ifc.
Proof.
  intros Hy Hs Hi r. subst r.
  split; [by eapply save_known_indicator|].
  eexists. split; [by apply switch_Ok|]. simpl.
  apply find_indicator_Some in Hi as [Hin Hid].
  rewrite bool_decide_eq_true_2 by done.
  unfold rendered. rewrite <- list_fmap_compose.
  apply list_elem_of_fmap. exists ind. split; [|done]. simpl.
  rewrite Hid. by rewrite get_after_upsert.
Qed.

Lemma save_then_switch_witness :
  "2024" = active_year demo_cfg ∧
  find_section demo_cfg "population" = Ok population ∧
  find_indicator population "pop_male" = Some pop_male ∧
  let r := save demo_cfg "2024-03-02 09:00:00" demo_world
             "Acme" "2024" "Annual Total" "population" "pop_male" "10"
             "count" in
  fst r = Ok (render_row (with_value pop_male "10")
                "Acme" "2024" "Annual Total" "population" true true) ∧
  ∃ ifc,
    switch demo_cfg (reports (snd r)) "Acme" "2024" "Annual Total"
      "population" = Ok ifc ∧
    render_row (with_value pop_male "10")
      "Acme" "2024" "Annual Total" "population" true false ∈ rows ifc.
Proof.
  split_and!; [reflexivity..|].
  apply (save_then_switch demo_cfg _ demo_world _ _ _ _ _ _ _
           population pop_male); reflexivity.
Defined.

(** ** The index page *)

(** X17: with a section configured, the index page without a community (or
    with the placeholder of the selector) is the welcome page, whatever the
    store holds and whatever the other arguments are; with a community it
    carries the section fragment that the switch route returns for the same
    arguments, and the link to the review only in the active year. *)
Theorem index_page cfg db c y p section_id s0 ss :
  sections cfg = s0 :: ss →
  (∀ community_arg year_arg period_arg section_arg,
     default "Select Community" community_arg = "Select Community" →
     ∃ page, index cfg db community_arg year_arg period_arg section_arg
               = Ok page ∧ body page = Welcome) ∧
  (c ≠ "Select Community" →
   ∃ page ifc,
     index cfg db (Some c) (Some y) (Some p) (Some section_id) = Ok page ∧
     switch cfg db c y p section_id = Ok ifc ∧
     body page =
       Report (bool_decide (y = active_year cfg))
              (if bool_decide (y = active_year cfg)
               then Some (c, y, p) else None)
              ifc).
Proof.
  intros Hs. split.
  - intros ca ya pa sa Hc. unfold index. rewrite Hs.
    rewrite decide_True by done. by eexists.
  - intros Hc. unfold index. rewrite Hs. simpl default.
    rewrite decide_False by done.
    destruct (find_section_Ok cfg section_id) as [section Hsec];
      [by rewrite Hs|].
    rewrite Hsec. simpl. do 2 eexists.
    split_and!; [done | by apply switch_Ok | done].
Qed.

Lemma index_page_witness :
  sections demo_cfg = population :: [remarks] ∧
  (∀ community_arg year_arg period_arg section_arg,
     default "Select Community" community_arg = "Select Community" →
     ∃ page, index demo_cfg (reports demo_world)
               community_arg year_arg period_arg section_arg = Ok page
             ∧ body page = Welcome) ∧
  ("Acme" ≠ "Select Community" →
   ∃ page ifc,
     index demo_cfg (reports demo_world)
       (Some "Acme") (Some "2023") (Some "Q1") (Some "remarks") = Ok page ∧
     switch demo_cfg (reports demo_world) "Acme" "2023" "Q1" "remarks"
       = Ok ifc ∧
     body page =
       Report (bool_decide ("2023" = active_year demo_cfg))
              (if bool_decide ("2023" = active_year demo_cfg)
               then Some ("Acme", "2023", "Q1") else None)
              ifc).
Proof.
  split; [reflexivity|].
  apply (index_page demo_cfg _ _ _ _ _ population [remarks]). reflexivity.
Defined.

(** X18: a request that names only a community gets the first section of
    the active year, period Annual Total, editable and with the link to the
    review. *)
Theorem index_defaults cfg db c s0 ss :
  sections cfg = s0 :: ss →
  c ≠ "Select Community" →
  ∃ page ifc,
    index cfg db (Some c) None None None = Ok page ∧
    page_year page = active_year cfg ∧
    page_period page = "Annual Total" ∧
    body page =
      Report true (Some (c, active_year cfg, "Annual Total")) ifc ∧
    heading ifc = sec_name s0 ∧
    Forall (λ h, input_locked h = false) (rows ifc) ∧
    Forall2 (λ ind h, input_value h =
                        get_value_sql db c (active_year cfg) "Annual Total"
                          (ind_id ind))
            (indicators s0) (rows ifc).
Proof.
  intros Hs Hc. unfold index. rewrite Hs. simpl default.
  rewrite decide_False by done.
  assert (find_section cfg (sec_id s0) = Ok s0) as ->.
  { unfold find_section. rewrite Hs, filter_cons, decide_True by done. done. }
  simpl. rewrite bool_decide_eq_true_2 by done.
  do 2 eexists. split_and!; try done; simpl; unfold rendered;
    rewrite <- list_fmap_compose.
  - apply Forall_fmap, Forall_forall. by intros ind _.
  - apply Forall2_fmap_r, Forall_Forall2_diag, Forall_forall. by intros ind _.
Qed.

Lemma index_defaults_witness :
  sections demo_cfg = population :: [remarks] ∧
  "Acme" ≠ "Select Community" ∧
  ∃ page ifc,
    index demo_cfg (reports demo_world) (Some "Acme") None None None
      = Ok page ∧
    page_year page = active_year demo_cfg ∧
    page_period page = "Annual Total" ∧
    body page =
      Report true (Some ("Acme", active_year demo_cfg, "Annual Total")) ifc ∧
    heading ifc = sec_name population ∧
    Forall (λ h, input_locked h = false) (rows ifc) ∧
    Forall2 (λ ind h, input_value h =
                        get_value_sql (reports demo_world) "Acme"
                          (active_year demo_cfg) "Annual Total" (ind_id ind))
            (indicators population) (rows ifc).
Proof.
  split_and!; [reflexivity | discriminate |].
  apply (index_defaults demo_cfg _ _ population [remarks]);
    [reflexivity | discriminate].
Defined.

(** ** The argument of the client-side sum *)

Lemma endswith_append p s : endswith (p +:+ s) s = true.
Proof.
  induction p as [|a p IH]; simpl.
  - destruct s; simpl; try done; by case_decide.
  - by case_decide.
Qed.

Lemma before_last_underscore_append p t :
  before_last_underscore t = None →
  before_last_underscore (p +:+ String "_" t) = Some p.
Proof.
  intros Ht. induction p as [|a p IH]; simpl.
  - rewrite Ht. first [done | by case_decide].
  - by rewrite IH.
Qed.

(** X19: for an indicator that is not derived and whose id is a prefix
    followed by [_male], [_female] or [_nb], the editable row asks the
    client to sum into that prefix, whatever underscores the prefix has;
    a row that is not editable, or a derived indicator, asks for no sum. *)
Theorem autosum_prefix prefix suffix ind :
  suffix ∈ ["_male"; "_female"; "_nb"] →
  item_id ind = prefix +:+ suffix →
  autosum ind false = None ∧
  (item_derived ind = true → autosum ind true = None) ∧
  (item_derived ind = false → autosum ind true = Some prefix).
Proof.
  intros Hsuf Hid. unfold autosum. rewrite Hid. split_and!.
  - done.
  - by intros ->.
  - intros ->. simpl negb. cbv beta iota.
    assert (∃ t, suffix = String "_" t ∧ before_last_underscore t = None)
      as (t & -> & Ht).
    { repeat (apply elem_of_cons in Hsuf as [->|Hsuf]; [by eexists|]).
      by apply elem_of_nil in Hsuf. }
    unfold rsplit_prefix. rewrite before_last_underscore_append by done.
    assert (endswith (prefix +:+ String "_" t) "_male"
            || endswith (prefix +:+ String "_" t) "_female"
            || endswith (prefix +:+ String "_" t) "_nb" = true) as ->; [|done].
    repeat (apply elem_of_cons in Hsuf as [Hsuf|Hsuf];
            [rewrite Hsuf, endswith_append;
             by rewrite ?orb_true_r, ?orb_true_l|]).
    by apply elem_of_nil in Hsuf.
Qed.

Lemma autosum_prefix_witness :
  "_female" ∈ ["_male"; "_female"; "_nb"] ∧
  item_id (with_value pop_female "12") = "pop" +:+ "_female" ∧
  autosum (with_value pop_female "12") false = None ∧
  (item_derived (with_value pop_female "12") = true →
   autosum (with_value pop_female "12") true = None) ∧
  (item_derived (with_value pop_female "12") = false →
   autosum (with_value pop_female "12") true = Some "pop").
Proof.
  assert ("_female" ∈ ["_male"; "_female"; "_nb"]) as Hin by (right; left).
  split; [exact Hin|]. split; [reflexivity|].
  apply (autosum_prefix "pop" "_female" _ Hin). reflexivity.
Defined.

(** ** What a save stores *)

(** X20: a save in the active year stores the submitted value and the
    submitted unit under the submitted indicator id before it looks the
    indicator up: on a table that respects its primary key the entry at the
    key is that one afterwards, whether the route returns a row or raises. *)
Theorem save_stores_submitted cfg now w c y p section_id iid v u :
  wf_table (reports w) →
  y = active_year cfg →
  rows_at (c, y, p, iid)
    (reports (snd (save cfg now w c y p section_id iid v u))) =
  [{| community := c; year := y; period := p; indicator_id := iid;
      value := v; unit_ := u; last_updated := now |}].
Proof.
  intros Hwf Hy. rewrite save_world, upsert_active by done.
  set (new := {| community := c; year := y; period := p;
                 indicator_id := iid; value := v; unit_ := u;
                 last_updated := now |}).
  change (c, y, p, iid) with (row_key new). by apply rows_at_insert.
Qed.

Lemma save_stores_submitted_witness :
  wf_table (reports demo_world) ∧
  "2024" = active_year demo_cfg ∧
  rows_at ("Acme", "2024", "Annual Total", "nope")
    (reports (snd (save demo_cfg "2024-03-02 09:00:00" demo_world
                     "Acme" "2024" "Annual Total" "population" "nope" "1"
                     "litres"))) =
  [{| community := "Acme"; year := "2024"; period := "Annual Total";
      indicator_id := "nope"; value := "1"; unit_ := "litres";
      last_updated := "2024-03-02 09:00:00" |}].
Proof.
  split_and!; [exact demo_world_wf | reflexivity |].
  apply save_stores_submitted; [exact demo_world_wf | reflexivity].
Defined.



Lemma review_perm_witness :
  wf_table (reports demo_world) ∧
  reports demo_world ≡ₚ reverse (reports demo_world) ∧
  review demo_cfg (reports demo_world) "Acme" "2024" "Annual Total" =
  review demo_cfg (reverse (reports demo_world))
    "Acme" "2024" "Annual Total".
Proof.
  assert (reports demo_world ≡ₚ reverse (reports demo_world)) as Hp
    by (symmetry; apply reverse_Permutation).
  split_and!; [exact demo_world_wf | exact Hp |].
  apply review_perm; [exact demo_world_wf | exact Hp].
Defined.
